(** * Rockefeller: exchange-rate store and resolver

    A shallow embedding of [rockefeller/exchange_rates.py] together with the
    part of the Python runtime it relies on (the [decimal] module in its
    default context, [str], [hash] and truthiness), followed by the
    properties of the resolver and of the in-memory store.

    Methods that mutate [self] return the new state; a call that can raise
    returns an [outcome].  The [Currency] class is not part of the file under
    study: currencies and dates are parameters, known through [hash], and a
    currency object counts as true in a condition.  Text is ASCII. *)

From Stdlib Require Import ZArith NArith Lia Bool.
From Stdlib Require Import String Ascii DecimalString DecimalN DecimalZ DecimalPos DecimalFacts.
From stdpp Require Import base gmap strings.

Local Open Scope string_scope.
Local Open Scope Z_scope.

(** ** Exceptions and the error monad *)

(** The exceptions that can leave the code under study. *)
Inductive exception : Type :=
  | InvalidOperation   (* decimal.InvalidOperation (also ConversionSyntax, DivisionUndefined) *)
  | DivisionByZero     (* decimal.DivisionByZero *)
  | Overflow           (* decimal.Overflow *)
  | AttributeError (name : string)
  | TypeError.

(** Outcome of a Python call: a returned value or a raised exception. *)
Inductive outcome (A : Type) : Type :=
  | Returns (a : A)
  | Raises (e : exception).
Arguments Returns {A} a.
Arguments Raises {A} e.

#[global] Instance outcome_ret : MRet outcome := fun A a => Returns a.

#[global] Instance outcome_bind : MBind outcome := fun A B k m =>
  match m with
  | Returns a => k a
  | Raises e => Raises e
  end.

(** ** Characters and digit strings *)

Definition is_digit (c : ascii) : bool :=
  let n := N_of_ascii c in ((48 <=? n) && (n <=? 57))%N.

(** Whitespace removed by [str.strip()] (ASCII range). *)
Definition is_space (c : ascii) : bool :=
  let n := N_of_ascii c in
  (((9 <=? n) && (n <=? 13)) || ((28 <=? n) && (n <=? 32)))%N.

(** Case folding of [re.IGNORECASE] (ASCII range). *)
Definition lower (c : ascii) : ascii :=
  let n := N_of_ascii c in
  if ((65 <=? n) && (n <=? 90))%N then ascii_of_N (n + 32) else c.

Fixpoint lower_string (s : string) : string :=
  match s with
  | EmptyString => EmptyString
  | String c r => String (lower c) (lower_string r)
  end.

Fixpoint lstrip (s : string) : string :=
  match s with
  | EmptyString => EmptyString
  | String c r => if is_space c then lstrip r else s
  end.

Fixpoint rstrip (s : string) : string :=
  match s with
  | EmptyString => EmptyString
  | String c r =>
      match rstrip r with
      | EmptyString => if is_space c then EmptyString else String c EmptyString
      | r' => String c r'
      end
  end.

Definition strip (s : string) : string := rstrip (lstrip s).

(** Longest prefix of digits ([\d*], greedy) and the remainder. *)
Fixpoint span_digits (s : string) : string * string :=
  match s with
  | EmptyString => (EmptyString, EmptyString)
  | String c r =>
      if is_digit c
      then let '(ds, rest) := span_digits r in (String c ds, rest)
      else (EmptyString, s)
  end.

Definition is_empty (s : string) : bool :=
  match s with EmptyString => true | _ => false end.

(** [int(s)] for a string of digits, and [str(n)] for a natural number. *)
Definition int_of_digits (s : string) : N :=
  match NilEmpty.uint_of_string s with
  | Some u => N.of_uint u
  | None => 0%N
  end.

Definition digits (n : N) : string := NilEmpty.string_of_uint (N.to_uint n).

Fixpoint zeros (n : nat) : string :=
  match n with
  | O => EmptyString
  | S n' => String "0" (zeros n')
  end.

(** [str(z)] for a Python [int]. *)
Definition str_int (z : Z) : string :=
  if z <? 0 then String "-" (digits (Z.abs_N z)) else digits (Z.abs_N z).

(** ** The [decimal] module

    [Decimal] values and the operations the library calls, following
    CPython's [_pydecimal.py], in the default context: [prec=28],
    [rounding=ROUND_HALF_EVEN], [Emin=-999999], [Emax=999999], [clamp=0],
    traps on [InvalidOperation], [DivisionByZero] and [Overflow].  Signals
    that are not trapped only set context flags, which nothing here reads;
    they are left out.  The coefficient, a digit string in CPython, is kept
    as the natural number it denotes; a NaN payload likewise, the empty
    payload being [0].  Numerals are read as by the interpreters the package
    declares (2.7 and 3.3): no digit-group underscores. *)
Module decimal.

Inductive Decimal : Type :=
  | Finite (sign : bool) (coeff : N) (exp : Z)
  | Infinity (sign : bool)
  | NaN (sign : bool) (signaling : bool) (payload : N).

Definition prec : Z := 28.
Definition Emax : Z := 999999.
Definition Emin : Z := -999999.
Definition clamp : Z := 0.
Definition Etiny : Z := Emin - prec + 1.
Definition Etop : Z := Emax - prec + 1.

(** [len(self._int)]: the number of decimal digits of the coefficient. *)
Definition len (n : N) : Z := Z.of_nat (String.length (digits n)).

(** *** Construction from a string: [Decimal(value)] *)

Definition parse_sign (s : string) : bool * string :=
  match s with
  | String "-"%char r => (true, r)
  | String "+"%char r => (false, r)
  | _ => (false, s)
  end.

(** [[-+]?\d+] up to the end of the string. *)
Definition parse_exponent (s : string) : option Z :=
  let '(neg, r) := parse_sign s in
  let '(ds, rest) := span_digits r in
  if is_empty ds || negb (is_empty rest) then None
  else Some (if neg then - Z.of_N (int_of_digits ds) else Z.of_N (int_of_digits ds)).

(** The finite alternative of [_parser]: integer part, optional fraction,
    optional exponent, with at least one digit in the first two. *)
Definition parse_number (body : string) : option (N * Z) :=
  let '(intpart, r1) := span_digits body in
  let '(fracpart, r2) :=
    match r1 with
    | String "."%char r => span_digits r
    | _ => (EmptyString, r1)
    end in
  if is_empty intpart && is_empty fracpart then None
  else
    let coeff := int_of_digits (intpart ++ fracpart) in
    let fraclen := Z.of_nat (String.length fracpart) in
    match r2 with
    | EmptyString => Some (coeff, - fraclen)
    | String c e =>
        if Ascii.eqb (lower c) "e"
        then match parse_exponent e with
             | Some x => Some (coeff, x - fraclen)
             | None => None
             end
        else None
    end.

(** The two special alternatives of [_parser]: [Inf(inity)?] and
    [s?NaN\d*], on the case-folded text. *)
Definition parse_special (sign : bool) (body : string) : option Decimal :=
  let lb := lower_string body in
  if String.eqb lb "inf" || String.eqb lb "infinity" then Some (Infinity sign)
  else
    let '(signal, r) :=
      match lb with
      | String "s"%char r => (true, r)
      | _ => (false, lb)
      end in
    match r with
    | String "n"%char (String "a"%char (String "n"%char diag)) =>
        let '(ds, rest) := span_digits diag in
        if is_empty rest then Some (NaN sign signal (int_of_digits ds)) else None
    | _ => None
    end.

(** [Decimal(value)] for a [str]: surrounding whitespace is stripped and
    the text is matched against [_parser]; a mismatch signals
    [ConversionSyntax], raised as [InvalidOperation]. *)
Definition from_str (value : string) : outcome Decimal :=
  let '(sign, body) := parse_sign (strip value) in
  match parse_number body with
  | Some (coeff, exp) => Returns (Finite sign coeff exp)
  | None =>
      match parse_special sign body with
      | Some d => Returns d
      | None => Raises InvalidOperation
      end
  end.

(** [Decimal(value)] for an [int]. *)
Definition from_int (value : Z) : Decimal :=
  Finite (value <? 0) (Z.abs_N value) 0.

(** [__bool__]: false exactly for the finite zeros. *)
Definition to_bool (d : Decimal) : bool :=
  match d with
  | Finite _ c _ => negb (c =? 0)%N
  | _ => true
  end.

(** *** Printing: [str(d)] *)

(** ["%+d" % z] *)
Definition format_signed (z : Z) : string :=
  if z <? 0 then String "-" (digits (Z.abs_N z)) else String "+" (digits (Z.abs_N z)).

Definition sign_str (sign : bool) : string := if sign then "-" else "".

Definition payload_str (p : N) : string := if (p =? 0)%N then "" else digits p.

Definition to_str (d : Decimal) : string :=
  match d with
  | Infinity s => sign_str s ++ "Infinity"
  | NaN s false p => sign_str s ++ "NaN" ++ payload_str p
  | NaN s true p => sign_str s ++ "sNaN" ++ payload_str p
  | Finite s c e =>
      let ds := digits c in
      let n := len c in
      let leftdigits := e + n in
      let dotplace :=
        if (e <=? 0) && (leftdigits >? -6) then leftdigits else 1 in
      let '(intpart, fracpart) :=
        if dotplace <=? 0
        then ("0", "." ++ zeros (Z.to_nat (- dotplace)) ++ ds)
        else if dotplace >=? n
        then (ds ++ zeros (Z.to_nat (dotplace - n)), "")
        else (substring 0 (Z.to_nat dotplace) ds,
              "." ++ substring (Z.to_nat dotplace) (Z.to_nat (n - dotplace)) ds) in
      let exp :=
        if leftdigits =? dotplace then ""
        else "E" ++ format_signed (leftdigits - dotplace) in
      sign_str s ++ intpart ++ fracpart ++ exp
  end.

(** *** Rounding to the context: [_fix] *)

(** [_round_half_even(self, prec)] on a coefficient [c] of which the first
    [keep] digits stay: [1] to round away from zero, [0] when the dropped
    digits are all zero, [-1] to truncate.  The digit tests of CPython
    ([_exact_half], [_all_zeros], [self._int[prec] in '56789'],
    [self._int[prec-1] in '02468']) are read off the number. *)
Definition _round_half_even (c : N) (keep : Z) : Z :=
  let k := Z.to_N (len c - keep) in
  let dropped := (c mod 10 ^ k)%N in
  let kept := (c / 10 ^ k)%N in
  let half := (5 * 10 ^ (k - 1))%N in
  if (dropped =? half)%N && ((keep =? 0) || N.even kept) then -1
  else if (half <=? dropped)%N then 1
  else if (dropped =? 0)%N then 0
  else -1.

(** [_fix_nan]: a payload longer than [prec - clamp] digits keeps its last
    [prec - clamp] digits, leading zeros dropped. *)
Definition _fix_nan (d : Decimal) : Decimal :=
  match d with
  | NaN s sig p => NaN s sig (p mod 10 ^ Z.to_N (prec - clamp))%N
  | _ => d
  end.

(** [_fix]: round to [prec] digits and bring the exponent in range.
    [Overflow] is trapped; [Underflow], [Subnormal], [Inexact], [Rounded]
    and [Clamped] are not. *)
Definition _fix (d : Decimal) : outcome Decimal :=
  match d with
  | NaN _ _ _ => Returns (_fix_nan d)
  | Infinity _ => Returns d
  | Finite s c e =>
      if (c =? 0)%N then
        Returns (Finite s 0 (Z.min (Z.max e Etiny) Emax))
      else
        let exp_min := len c + e - prec in
        if exp_min >? Etop then Raises Overflow
        else
          let self_is_subnormal := exp_min <? Etiny in
          let exp_min := if self_is_subnormal then Etiny else exp_min in
          if e <? exp_min then
            let digits := len c + e - exp_min in
            let '(c, digits) := if digits <? 0 then (1%N, 0) else (c, digits) in
            let changed := _round_half_even c digits in
            let coeff := (c / 10 ^ Z.to_N (len c - digits))%N in
            let '(coeff, exp_min) :=
              if changed >? 0 then
                let coeff := (coeff + 1)%N in
                if len coeff >? prec then ((coeff / 10)%N, exp_min + 1)
                else (coeff, exp_min)
              else (coeff, exp_min) in
            if exp_min >? Etop then Raises Overflow
            else Returns (Finite s coeff exp_min)
          else Returns d
  end.

(** *** Arithmetic *)

Definition is_nan (d : Decimal) : Datatypes.bool :=
  match d with NaN _ _ _ => true | _ => false end.

(** [_check_nans]: a signaling NaN raises, a quiet NaN is the result. *)
Definition _check_nans (a b : Decimal) : outcome (option Decimal) :=
  match a, b with
  | NaN _ true _, _ => Raises InvalidOperation
  | _, NaN _ true _ => Raises InvalidOperation
  | NaN _ false _, _ => Returns (Some (_fix_nan a))
  | _, NaN _ false _ => Returns (Some (_fix_nan b))
  | _, _ => Returns None
  end.

(** The loop of [__truediv__] on an exact quotient: trailing zeros are
    dropped while the exponent is below the ideal one; [n] is the distance
    to the ideal exponent. *)
Fixpoint strip_zeros (n : nat) (coeff : N) (exp : Z) : N * Z :=
  match n with
  | O => (coeff, exp)
  | S n' =>
      if (coeff mod 10 =? 0)%N then strip_zeros n' (coeff / 10)%N (exp + 1)
      else (coeff, exp)
  end.

(** [a / b] *)
Definition truediv (a b : Decimal) : outcome Decimal :=
  ans ← _check_nans a b;
  match ans with
  | Some r => Returns r
  | None =>
      match a, b with
      | Infinity _, Infinity _ => Raises InvalidOperation
      | Infinity s1, Finite s2 _ _ => Returns (Infinity (xorb s1 s2))
      | Finite s1 _ _, Infinity s2 => Returns (Finite (xorb s1 s2) 0 Etiny)
      | Finite s1 c1 e1, Finite s2 c2 e2 =>
          let sign := xorb s1 s2 in
          if (c2 =? 0)%N then
            if (c1 =? 0)%N then Raises InvalidOperation
            else Raises DivisionByZero
          else if (c1 =? 0)%N then _fix (Finite sign 0 (e1 - e2))
          else
            let shift := len c2 - len c1 + prec + 1 in
            let exp := e1 - e2 - shift in
            let '(coeff, remainder) :=
              if 0 <=? shift
              then N.div_eucl (c1 * 10 ^ Z.to_N shift) c2
              else N.div_eucl c1 (c2 * 10 ^ Z.to_N (- shift)) in
            let '(coeff, exp) :=
              if negb (remainder =? 0)%N then
                ((if (coeff mod 5 =? 0)%N then coeff + 1 else coeff)%N, exp)
              else strip_zeros (Z.to_nat (e1 - e2 - exp)) coeff exp in
            _fix (Finite sign coeff exp)
      | _, _ => Raises InvalidOperation
      end
  end.

(** [a * b] *)
Definition mul (a b : Decimal) : outcome Decimal :=
  ans ← _check_nans a b;
  match ans with
  | Some r => Returns r
  | None =>
      match a, b with
      | Infinity s1, Infinity s2 => Returns (Infinity (xorb s1 s2))
      | Infinity s1, Finite s2 c2 _ =>
          if (c2 =? 0)%N then Raises InvalidOperation
          else Returns (Infinity (xorb s1 s2))
      | Finite s1 c1 _, Infinity s2 =>
          if (c1 =? 0)%N then Raises InvalidOperation
          else Returns (Infinity (xorb s1 s2))
      | Finite s1 c1 e1, Finite s2 c2 e2 =>
          _fix (Finite (xorb s1 s2) (c1 * c2) (e1 + e2))
      | _, _ => Raises InvalidOperation
      end
  end.

End decimal.

(** ** Runtime protocols used by the library *)

(** [hash(x)]: the keys of the in-memory store are built from it. *)
Class Hash (A : Type) := hash : A -> Z.

(** [str(x)] *)
Class Str (A : Type) := str : A -> string.

#[global] Instance string_str : Str string := fun s => s.
#[global] Instance int_str : Str Z := str_int.
#[global] Instance Decimal_str : Str decimal.Decimal := decimal.to_str.

(** A rate handed to the library: "numeric or string".  [Float] is the
    runtime's floating-point type, known here through its [str] only. *)
Inductive rate_arg (Float : Type) : Type :=
  | RStr (s : string)
  | RInt (z : Z)
  | RFloat (f : Float)
  | RDecimal (d : decimal.Decimal).
Arguments RStr {Float} s.
Arguments RInt {Float} z.
Arguments RFloat {Float} f.
Arguments RDecimal {Float} d.

#[global] Instance rate_arg_str {Float : Type} `{Str Float} : Str (rate_arg Float) :=
  fun r =>
    match r with
    | RStr s => str s
    | RInt z => str z
    | RFloat f => str f
    | RDecimal d => str d
    end.

(** The values that flow through [get_exchange_rate]: [None], a stored
    string, or a [Decimal]. *)
Inductive value : Type :=
  | VNone
  | VStr (s : string)
  | VDecimal (d : decimal.Decimal).

#[global] Instance value_str : Str value := fun v =>
  match v with
  | VNone => "None"
  | VStr s => str s
  | VDecimal d => str d
  end.

(** Truth value of an object in a condition. *)
Definition truthy (v : value) : bool :=
  match v with
  | VNone => false
  | VStr s => negb (is_empty s)
  | VDecimal d => decimal.to_bool d
  end.

(** What [dict.get] hands back: the stored string, or [None]. *)
Definition of_lookup (o : option string) : value :=
  match o with
  | Some s => VStr s
  | None => VNone
  end.

(** [decimal.Decimal(v)] *)
Definition Decimal_new (v : value) : outcome decimal.Decimal :=
  match v with
  | VStr s => decimal.from_str s
  | VDecimal d => Returns d
  | VNone => Raises TypeError
  end.

(** [a * b]: defined here between two [Decimal]s only. *)
Definition value_mul (a b : value) : outcome value :=
  match a, b with
  | VDecimal x, VDecimal y => d ← decimal.mul x y; Returns (VDecimal d)
  | _, _ => Raises TypeError
  end.

(** ** [class ExchangeRate] *)
Module ExchangeRate.
Section ExchangeRate.
Context {Currency Date Float : Type} `{Str Float}.

(** [namedtuple('ExchangeRate', 'code_from code_to rate date')] *)
Record t : Type := mk {
  code_from : Currency;
  code_to : Currency;
  rate : decimal.Decimal;
  date : option Date
}.

(** [ExchangeRate.__new__]: a rate that is not a [Decimal] already goes
    through [decimal.Decimal(str(rate))]. *)
Definition __new__ (code_from code_to : Currency) (rate : rate_arg Float)
    (date : option Date) : outcome t :=
  rate ← match rate with
         | RDecimal d => Returns d
         | _ => decimal.from_str (str rate)
         end;
  Returns (mk code_from code_to rate date).
End ExchangeRate.
Arguments t : clear implicits.
End ExchangeRate.

(** ** [class MemoryExchangeRates]

    The values of the dictionary are strings: the store documents its
    [exchange_rate] as a [str], and the resolver hands it [str(...)] only. *)
Module MemoryExchangeRates.
Section MemoryExchangeRates.
Context {Currency Date : Type} `{Hash Currency} `{Hash (option Date)}.

(** The instance state: the dictionary [self.rates]. *)
Record t : Type := mk { rates : gmap (Z * Z * Z) string }.

Definition __init__ : t := mk ∅.

Definition _get_key (base_currency currency : Currency) (date : option Date)
    : Z * Z * Z :=
  (hash base_currency, hash currency, hash date).

Definition add_exchange_rate (self : t) (base_currency currency : Currency)
    (exchange_rate : string) (date : option Date) : t :=
  mk (<[_get_key base_currency currency date := exchange_rate]> (rates self)).

(** Two [pop(key, None)] calls: the key itself, then the swapped key. *)
Definition remove_exchange_rate (self : t) (base_currency currency : Currency)
    (date : option Date) : t :=
  let rates1 := delete (_get_key base_currency currency date) (rates self) in
  mk (delete (_get_key currency base_currency date) rates1).

Definition get_exchange_rate (self : t) (base_currency currency : Currency)
    (date : option Date) : option string :=
  rates self !! _get_key base_currency currency date.
End MemoryExchangeRates.
End MemoryExchangeRates.

(** ** [class ExchangeRates] *)
Module ExchangeRates.
Section ExchangeRates.
Context {Currency Date Float : Type}.
Context `{Hash Currency} `{Hash (option Date)} `{Str Float}.

(** The module-level name [get_exchange_rate], looked up when the
    indirection branch runs, applied to three positional arguments. *)
Variable module_get_exchange_rate :
  Currency -> Currency -> option Date -> outcome value.

(** The instance state: [self.store], set by [__init__].  The module builds
    its one resolver over a [MemoryExchangeRates]. *)
Record t : Type := mk { store : MemoryExchangeRates.t }.

Definition __init__ (store : MemoryExchangeRates.t) : t := mk store.

(** [self.currency]: neither [__init__] nor the class defines such an
    attribute. *)
Definition self_currency (self : t) : outcome Currency :=
  Raises (AttributeError "currency").

Definition add_exchange_rate (self : t) (base_currency currency : Currency)
    (exchange_rate : rate_arg Float) (date : option Date) : outcome t :=
  Returns (mk (MemoryExchangeRates.add_exchange_rate (store self)
                 base_currency currency (str exchange_rate) date)).

Definition remove_exchange_rate (self : t) (base_currency currency : Currency)
    (date : option Date) : outcome t :=
  Returns (mk (MemoryExchangeRates.remove_exchange_rate (store self)
                 base_currency currency date)).

(** [indirection_currency] is [None] or a currency, [date] is [None] or a
    date.  [return rate] at the end hands back what the direct lookup gave:
    [None], or an empty string. *)
Definition get_exchange_rate (self : t) (base_currency currency : Currency)
    (indirection_currency : option Currency) (date : option Date)
    : outcome value :=
  (* get rate from store *)
  let rate := of_lookup (MemoryExchangeRates.get_exchange_rate (store self)
                           base_currency currency date) in
  if truthy rate then
    d ← Decimal_new (VStr (str rate)); Returns (VDecimal d)
  else
    (* else try with inverse *)
    let inverse := of_lookup (MemoryExchangeRates.get_exchange_rate (store self)
                                currency base_currency date) in
    if truthy inverse then
      d ← Decimal_new inverse;
      q ← decimal.truediv (decimal.from_int 1) d;
      Returns (VDecimal q)
    else
      (* else try with indirection_currency *)
      match indirection_currency with
      | Some indirection_currency =>
          base ← self_currency self;
          rate_from_base ← module_get_exchange_rate base indirection_currency date;
          rate_base_to ← module_get_exchange_rate indirection_currency currency date;
          if truthy rate_from_base && truthy rate_base_to then
            rate ← value_mul rate_from_base rate_base_to;
            d ← Decimal_new (VStr (str rate));
            Returns (VDecimal d)
          else Returns rate
      | None => Returns rate
      end.
End ExchangeRates.
End ExchangeRates.

(** The module's own resolver:
    [exchange_rates = ExchangeRates(store=MemoryExchangeRates())]. *)
Definition exchange_rates : ExchangeRates.t :=
  ExchangeRates.__init__ MemoryExchangeRates.__init__.

(** ** A concrete runtime

    The classes above are parametric in the currency and date objects (known
    through [hash]) and in the floating-point type (known through [str]).
    This part supplies one instance: IEEE 754 binary64 with the shortest
    round-trip [repr] of Python 3, currencies named by their ISO 4217 code,
    and dates by their ordinal. *)
Module float.

(** A binary64 number: [(-1)^sign * m * 2^e] with [m < 2^53] and
    [-1074 <= e <= 971], zero being [m = 0]; or an infinity; or a NaN. *)
Inductive binary64 : Type :=
  | B754_finite (sign : bool) (m : N) (e : Z)
  | B754_infinity (sign : bool)
  | B754_nan.

(** A non-negative rational [num / den] scaled by [base ^ k]. *)
Definition scale (base : N) (k : Z) (q : N * N) : N * N :=
  let '(num, den) := q in
  if 0 <=? k then ((num * base ^ Z.to_N k)%N, den)
  else (num, (den * base ^ Z.to_N (- k))%N).

Definition floor (q : N * N) : N := (fst q / snd q)%N.

(** Nearest integer, ties to even. *)
Definition round_half_even (q : N * N) : N :=
  let '(num, den) := q in
  let f := (num / den)%N in
  let r := (num mod den)%N in
  if (2 * r <? den)%N then f
  else if (den <? 2 * r)%N then (f + 1)%N
  else if N.even f then f else (f + 1)%N.

(** Correctly rounded conversion of [num / den] (how a literal such as
    [0.78], that is [78 / 100], is read). *)
Definition of_rational (sign : bool) (q : N * N) : binary64 :=
  let '(num, den) := q in
  if (num =? 0)%N then B754_finite sign 0 (-1074)
  else
    let l := Z.of_N (N.log2 num) - Z.of_N (N.log2 den) in
    (* floor (log2 (num / den)) is l or l - 1 *)
    let l := if (1 <=? floor (scale 2 (- l) q))%N then l else l - 1 in
    let e := Z.max (l - 52) (-1074) in
    let m := round_half_even (scale 2 (- e) q) in
    let '(m, e) := if (m =? 2 ^ 53)%N then ((2 ^ 52)%N, e + 1) else (m, e) in
    if 971 <? e then B754_infinity sign else B754_finite sign m e.

Definition eqb (x y : binary64) : bool :=
  match x, y with
  | B754_finite s1 m1 e1, B754_finite s2 m2 e2 =>
      Bool.eqb s1 s2 && (m1 =? m2)%N && (e1 =? e2)
  | B754_infinity s1, B754_infinity s2 => Bool.eqb s1 s2
  | B754_nan, B754_nan => true
  | _, _ => false
  end.

(** [floor (log10 q)] for [q > 0], searched upwards from [p]. *)
Fixpoint log10_from (fuel : nat) (p : Z) (q : N * N) : Z :=
  match fuel with
  | O => p
  | S fuel' =>
      if (floor (scale 10 (- (p + 1)) q) =? 0)%N then p
      else log10_from fuel' (p + 1) q
  end.

Definition log10 (q : N * N) : Z :=
  let l := Z.of_N (N.log2 (fst q)) - Z.of_N (N.log2 (snd q)) in
  log10_from 8 (l * 30102 / 100000 - 3) q.

(** The candidate with [n] significant digits nearest to [q] that reads
    back as [x], if there is one: its digits and the position of the
    decimal point. *)
Definition candidate (x : binary64) (q : N * N) (n : Z) : option (N * Z) :=
  let k := log10 q + 1 - n in
  let lo := floor (scale 10 (- k) q) in
  let hi := (lo + 1)%N in
  let ok c := eqb (of_rational false (scale 10 k (c, 1%N))) x in
  let pick c :=
    if (c =? 10 ^ Z.to_N n)%N then Some (1%N, n + k + 1) else Some (c, n + k) in
  match ok lo, ok hi with
  | true, true => if (round_half_even (scale 10 (- k) q) =? lo)%N then pick lo else pick hi
  | true, false => pick lo
  | false, true => pick hi
  | false, false => None
  end.

Fixpoint shortest (fuel : nat) (x : binary64) (q : N * N) (n : Z) : N * Z :=
  match fuel with
  | O => (0%N, 0)
  | S fuel' =>
      match candidate x q n with
      | Some r => r
      | None => shortest fuel' x q (n + 1)
      end
  end.

(** Trailing zeros carry no information: [100] is the digit [1]. *)
Fixpoint strip_trailing (fuel : nat) (c : N) : N :=
  match fuel with
  | O => c
  | S fuel' => if (c mod 10 =? 0)%N then strip_trailing fuel' (c / 10)%N else c
  end.

(** ["%+03d" % z]: the exponent of a float in scientific notation. *)
Definition format_exponent (z : Z) : string :=
  let ds := digits (Z.abs_N z) in
  let ds := if (Z.abs z <? 10) then String "0" ds else ds in
  if z <? 0 then String "-" ds else String "+" ds.

(** [repr(x)], which is also [str(x)], in Python 3. *)
Definition repr (x : binary64) : string :=
  match x with
  | B754_nan => "nan"
  | B754_infinity s => decimal.sign_str s ++ "inf"
  | B754_finite s m e =>
      if (m =? 0)%N then decimal.sign_str s ++ "0.0"
      else
        let q := scale 2 e (m, 1%N) in
        let '(c, decpt) := shortest 17 x q 1 in
        let ds := digits (strip_trailing 17 c) in
        let nd := Z.of_nat (String.length ds) in
        let body :=
          if (decpt <=? -4) || (16 <? decpt) then
            let frac := substring 1 (Z.to_nat (nd - 1)) ds in
            substring 0 1 ds ++ (if is_empty frac then "" else "." ++ frac)
              ++ "e" ++ format_exponent (decpt - 1)
          else if decpt <=? 0 then "0." ++ zeros (Z.to_nat (- decpt)) ++ ds
          else if nd <=? decpt then ds ++ zeros (Z.to_nat (decpt - nd)) ++ ".0"
          else substring 0 (Z.to_nat decpt) ds ++ "."
                 ++ substring (Z.to_nat decpt) (Z.to_nat (nd - decpt)) ds in
        decimal.sign_str s ++ body
  end.

#[global] Instance binary64_str : Str binary64 := repr.

End float.

Module iso.

(** Currencies are named by their ISO 4217 code; the hash reads the code
    as a base-256 numeral. *)
Definition Currency : Type := string.

Fixpoint code_number (s : string) : Z :=
  match s with
  | EmptyString => 0
  | String c r => Z.of_N (N_of_ascii c) + 256 * code_number r
  end.

#[global] Instance Currency_hash : Hash Currency := code_number.

(** Dates are day ordinals; [None] is hashed apart from every day. *)
Definition Date : Type := Z.

#[global] Instance Date_hash : Hash (option Date) := fun d =>
  match d with
  | None => -1
  | Some n => Z.abs n
  end.

(** The float literal [0.78]. *)
Definition float_0_78 : float.binary64 := float.of_rational false (78%N, 100%N).

(** A module-level resolver that knows no rate. *)
Definition no_rate (base currency : Currency) (third : option Date) : outcome value :=
  Returns VNone.

(** A resolver over the store holding the given entries, added in order
    through [ExchangeRates.add_exchange_rate]. *)
Fixpoint resolver_of (entries : list (Currency * Currency * string * option Date))
    : ExchangeRates.t :=
  match entries with
  | [] => ExchangeRates.__init__ MemoryExchangeRates.__init__
  | (b, t, r, d) :: rest =>
      match ExchangeRates.add_exchange_rate (Float := float.binary64)
              (resolver_of rest) b t (RStr r) d with
      | Returns self => self
      | Raises _ => resolver_of rest
      end
  end.

End iso.

(** ** Auxiliary notions used in the proofs *)

Fixpoint all_digits (s : string) : bool :=
  match s with
  | EmptyString => true
  | String c r => is_digit c && all_digits r
  end.

Fixpoint no_space (s : string) : bool :=
  match s with
  | EmptyString => true
  | String c r => negb (is_space c) && no_space r
  end.

(** The remainder after a run of digits starts with something else. *)
Definition stops_digits (rest : string) : bool :=
  match rest with
  | EmptyString => true
  | String c _ => negb (is_digit c)
  end.

(** The text of a finite number: integer digits, an optional fraction and
    an optional exponent. *)
Definition number_text (ip : string) (fp : option string) (x : option Z) : string :=
  ip ++ match fp with Some f => "." ++ f | None => "" end
     ++ match x with Some z => "E" ++ decimal.format_signed z | None => "" end.

(** A lookup whose result is false in a condition: no entry, or the empty
    string. *)
Definition falsy_lookup (o : option string) : Prop := o = None \/ o = Some "".

(** [q] is exactly [1 / d]: same sign, and the product of the two values
    is one. *)
Definition exact_reciprocal (d q : decimal.Decimal) : Prop :=
  match d, q with
  | decimal.Finite s c e, decimal.Finite s' C E =>
      s = s' /\ E + e <= 0 /\ Z.of_N C * Z.of_N c = 10 ^ (- (E + e))
  | _, _ => False
  end.

Notation "'P27'" := (1000000000000000000000000000%N) (at level 0).
Notation "'P28'" := (10000000000000000000000000000%N) (at level 0).
Notation "'P29'" := (100000000000000000000000000000%N) (at level 0).

(** [C * 10^E] is [1 / (c * 10^e)] rounded to 28 significant digits, half
    to even: either it is exact and [C] ends in no zero, or [C] has 28
    digits, is not exact, lies within half a unit of its last place, is
    even at a tie and, when [C] is the smallest 28-digit coefficient, lies
    within half of the finer unit below it. *)
Definition rounded_reciprocal (c : N) (e : Z) (C : N) (E : Z) : Prop :=
  let err := 10 ^ (- E - e) - Z.of_N C * Z.of_N c in
  0 <= - E - e /\ (C < P28)%N /\
  ((err = 0 /\ (C mod 10)%N <> 0%N) \/
   ((P27 <= C)%N /\ err <> 0 /\ 2 * Z.abs err <= Z.of_N c /\
    (2 * Z.abs err = Z.of_N c -> N.even C = true) /\
    (C = P27 -> - 20 * err <= Z.of_N c))).

Ltac divlia := zify; Z.to_euclidean_division_equations; lia.

Ltac decide_bool :=
  repeat match goal with
  | |- context [?a <? ?b] =>
      first [rewrite (proj2 (Z.ltb_lt a b)) by lia | rewrite (proj2 (Z.ltb_ge a b)) by lia]
  | |- context [?a >? ?b] => rewrite (Z.gtb_ltb a b)
  | |- context [?a <=? ?b] =>
      first [rewrite (proj2 (Z.leb_le a b)) by lia | rewrite (proj2 (Z.leb_gt a b)) by lia]
  | |- context [?a =? ?b] =>
      first [rewrite (proj2 (Z.eqb_eq a b)) by lia | rewrite (proj2 (Z.eqb_neq a b)) by lia]
  | |- context [(?a =? ?b)%N] =>
      first [rewrite (proj2 (N.eqb_eq a b)) by lia | rewrite (proj2 (N.eqb_neq a b)) by lia]
  end.

(** * Properties *)

Import decimal.

(** ** The error monad *)

Lemma bind_Returns {A B : Type} (a : A) (k : A -> outcome B) :
  (Returns a ≫= k) = k a.
Proof. reflexivity. Qed.

Lemma bind_Raises {A B : Type} (e : exception) (k : A -> outcome B) :
  (Raises e ≫= k) = Raises e.
Proof. reflexivity. Qed.

Lemma bind_Returns_inv {A B : Type} (m : outcome A) (k : A -> outcome B) (b : B) :
  (m ≫= k) = Returns b -> exists a, m = Returns a /\ k a = Returns b.
Proof. destruct m as [a|e]; intros Hm; [exists a; auto | discriminate Hm]. Qed.

Lemma bind_Raises_inv {A B : Type} (m : outcome A) (k : A -> outcome B) (e : exception) :
  (m ≫= k) = Raises e ->
  m = Raises e \/ exists a, m = Returns a /\ k a = Raises e.
Proof. destruct m as [a|e']; intros Hm; [right; exists a; auto | left; injection Hm as ->; reflexivity]. Qed.

Lemma from_str_empty : decimal.from_str "" = Raises InvalidOperation.
Proof. reflexivity. Qed.

Lemma from_str_Raises s e : decimal.from_str s = Raises e -> e = InvalidOperation.
Proof.
  unfold decimal.from_str. destruct (decimal.parse_sign (strip s)) as [sg body].
  destruct (decimal.parse_number body) as [[c x]|]; [discriminate|].
  destruct (decimal.parse_special sg body); [discriminate|]. congruence.
Qed.

Lemma truthy_parsed s d : decimal.from_str s = Returns d -> truthy (VStr s) = true.
Proof. destruct s; [discriminate | reflexivity]. Qed.


(** ** Digit strings *)


Lemma all_digits_app a b : all_digits (a ++ b) = all_digits a && all_digits b.
Proof. induction a as [|c a IH]; simpl; [reflexivity|]. rewrite IH. apply andb_assoc. Qed.

Lemma all_digits_string_of_uint u : all_digits (NilEmpty.string_of_uint u) = true.
Proof. induction u; simpl; auto. Qed.

Lemma all_digits_digits n : all_digits (digits n) = true.
Proof. apply all_digits_string_of_uint. Qed.

Lemma all_digits_zeros k : all_digits (zeros k) = true.
Proof. induction k; simpl; auto. Qed.

Lemma length_string_of_uint u :
  String.length (NilEmpty.string_of_uint u) = N.to_nat (Unsigned.usize u).
Proof. induction u; simpl; rewrite ?IHu; lia. Qed.

Lemma to_uint_nonnil n : N.to_uint n <> Decimal.Nil.
Proof. destruct n; simpl; [discriminate | apply Unsigned.to_uint_nonnil]. Qed.

Lemma digits_nonempty n : digits n <> "".
Proof.
  unfold digits. pose proof (to_uint_nonnil n) as Hn.
  destruct (N.to_uint n); simpl; congruence.
Qed.

Lemma int_of_digits_digits n : int_of_digits (digits n) = n.
Proof.
  unfold int_of_digits, digits. rewrite NilEmpty.usu. apply DecimalN.Unsigned.of_to.
Qed.

Lemma uint_of_string_all_digits s :
  all_digits s = true -> exists u, NilEmpty.uint_of_string s = Some u /\ NilEmpty.string_of_uint u = s.
Proof.
  induction s as [|c s IH]; simpl.
  - exists Decimal.Nil. auto.
  - intros [Hc Hs]%andb_prop. destruct (IH Hs) as (u & -> & Hu).
    unfold is_digit in Hc.
    destruct c as [[] [] [] [] [] [] [] []]; try discriminate Hc; simpl;
      eexists; (split; [reflexivity | simpl; rewrite Hu; reflexivity]).
Qed.

Lemma len_pos n : 1 <= len n.
Proof.
  unfold len. pose proof (digits_nonempty n). destruct (digits n); simpl; [congruence | lia].
Qed.

Lemma len_0 : len 0 = 1.
Proof. reflexivity. Qed.

Lemma usize_revapp d d' :
  Unsigned.usize (Decimal.revapp d d') = (Unsigned.usize d + Unsigned.usize d')%N.
Proof. revert d'. induction d; intros d'; simpl; rewrite ?IHd; simpl; lia. Qed.

Lemma of_lu_lt l : (Unsigned.of_lu l < 10 ^ Unsigned.usize l)%N.
Proof.
  induction l; simpl Unsigned.of_lu; simpl Unsigned.usize;
    rewrite ?N.pow_succ_r'; simpl; lia.
Qed.

Lemma of_uint_lt d : (N.of_uint d < 10 ^ Unsigned.usize d)%N.
Proof.
  unfold N.of_uint. rewrite Unsigned.of_uint_alt.
  replace (Unsigned.usize d) with (Unsigned.usize (Decimal.rev d)).
  - apply of_lu_lt.
  - unfold Decimal.rev. rewrite usize_revapp. simpl. lia.
Qed.

Lemma usize_nb_digits d : Unsigned.usize d = N.of_nat (Decimal.nb_digits d).
Proof. induction d; simpl Unsigned.usize; simpl Decimal.nb_digits; rewrite ?IHd; lia. Qed.

Lemma to_uint_pos_head p : forall d', Pos.to_uint p <> Decimal.D0 d'.
Proof.
  intros d' Hd.
  pose proof (Unsigned.to_of (Pos.to_uint p)) as Hn.
  rewrite Unsigned.of_to in Hn. simpl in Hn.
  pose proof (Unsigned.to_uint_nonzero p) as Hz.
  rewrite Hd in Hn, Hz.
  assert (Hd' : d' <> Decimal.Nil) by (intros ->; apply Hz; reflexivity).
  assert (Hle : (Decimal.nb_digits (Decimal.unorm (Decimal.D0 d')) <= Decimal.nb_digits d')%nat).
  { change (Decimal.unorm (Decimal.D0 d')) with (Decimal.unorm d').
    apply nb_digits_unorm. assumption. }
  rewrite <- Hn in Hle. simpl in Hle. lia.
Qed.

Lemma of_uint_ge d :
  (forall d', d <> Decimal.D0 d') -> d <> Decimal.Nil ->
  (10 ^ (Unsigned.usize d - 1) <= N.of_uint d)%N.
Proof.
  intros H0 Hnil. unfold N.of_uint. rewrite Unsigned.of_uint_alt.
  destruct d; try congruence; try (exfalso; eapply H0; reflexivity);
    unfold Decimal.rev; simpl Decimal.revapp; rewrite Unsigned.of_lu_revapp;
    simpl Unsigned.usize; simpl Unsigned.of_lu;
    rewrite N.sub_1_r, N.pred_succ; nia.
Qed.

Lemma len_usize n : len n = Z.of_N (Unsigned.usize (N.to_uint n)).
Proof. unfold len, digits. rewrite length_string_of_uint. lia. Qed.

Lemma len_bounds n :
  n <> 0%N -> (10 ^ Z.to_N (len n - 1) <= n < 10 ^ Z.to_N (len n))%N.
Proof.
  intros Hn. rewrite len_usize.
  replace (Z.to_N (Z.of_N (Unsigned.usize (N.to_uint n)) - 1))
    with (Unsigned.usize (N.to_uint n) - 1)%N by lia.
  rewrite N2Z.id.
  rewrite <- (DecimalN.Unsigned.of_to n) at 2 3.
  split.
  - apply of_uint_ge.
    + destruct n as [|p]; [congruence|]. apply to_uint_pos_head.
    + apply to_uint_nonnil.
  - apply of_uint_lt.
Qed.

Lemma len_lt_pow n k : (n < 10 ^ k)%N -> (0 < k)%N -> len n <= Z.of_N k.
Proof.
  intros Hlt Hk. destruct (N.eq_dec n 0%N) as [->|Hn]; [rewrite len_0; lia|].
  destruct (len_bounds n Hn) as [Hlo _].
  destruct (Z_le_gt_dec (len n) (Z.of_N k)) as [|Hgt]; [assumption|exfalso].
  assert (10 ^ k <= 10 ^ Z.to_N (len n - 1))%N by (apply N.pow_le_mono_r; lia).
  lia.
Qed.

Lemma len_ge_pow n k : (10 ^ k <= n)%N -> Z.of_N k + 1 <= len n.
Proof.
  intros Hle.
  assert (Hn : n <> 0%N).
  { pose proof (N.pow_nonzero 10 k). lia. }
  destruct (len_bounds n Hn) as [_ Hhi].
  destruct (Z_le_gt_dec (Z.of_N k + 1) (len n)) as [|Hgt]; [assumption|exfalso].
  assert (10 ^ Z.to_N (len n) <= 10 ^ k)%N by (apply N.pow_le_mono_r; lia).
  lia.
Qed.

Lemma len_unique n k :
  (10 ^ k <= n < 10 ^ (k + 1))%N -> len n = Z.of_N k + 1.
Proof.
  intros [Hlo Hhi]. apply Z.le_antisymm.
  - replace (Z.of_N k + 1) with (Z.of_N (k + 1)) by lia. apply len_lt_pow; lia.
  - apply len_ge_pow. assumption.
Qed.

(** ** Stripping, spans and signs on the strings [to_str] produces *)


Lemma no_space_app a b : no_space (a ++ b) = no_space a && no_space b.
Proof. induction a as [|c a IH]; simpl; [reflexivity|]. rewrite IH. apply andb_assoc. Qed.

Lemma is_digit_not_space c : is_digit c = true -> is_space c = false.
Proof.
  unfold is_digit, is_space. set (n := N_of_ascii c). clearbody n. intros Hd.
  apply andb_prop in Hd as [H1 H2]. apply N.leb_le in H1, H2.
  apply orb_false_intro; apply andb_false_iff.
  - right. apply N.leb_gt. lia.
  - right. apply N.leb_gt. lia.
Qed.

Lemma all_digits_no_space s : all_digits s = true -> no_space s = true.
Proof.
  induction s as [|c s IH]; simpl; [reflexivity|].
  intros [Hc Hs]%andb_prop. rewrite (is_digit_not_space c Hc), (IH Hs). reflexivity.
Qed.

Lemma lstrip_no_space s : no_space s = true -> lstrip s = s.
Proof.
  destruct s as [|c s]; simpl; [reflexivity|].
  intros [Hc _]%andb_prop. apply negb_true_iff in Hc. rewrite Hc. reflexivity.
Qed.

Lemma rstrip_no_space s : no_space s = true -> rstrip s = s.
Proof.
  induction s as [|c s IH]; simpl; [reflexivity|].
  intros [Hc Hs]%andb_prop. apply negb_true_iff in Hc. rewrite (IH Hs), Hc.
  destruct s; reflexivity.
Qed.

Lemma strip_no_space s : no_space s = true -> strip s = s.
Proof.
  intros Hs. unfold strip. rewrite (lstrip_no_space s Hs). apply rstrip_no_space, Hs.
Qed.


Lemma span_digits_app ds rest :
  all_digits ds = true -> stops_digits rest = true ->
  span_digits (ds ++ rest) = (ds, rest).
Proof.
  intros Hds Hrest. induction ds as [|c ds IH]; simpl.
  - destruct rest as [|c r]; simpl in *; [reflexivity|].
    apply negb_true_iff in Hrest. rewrite Hrest. reflexivity.
  - simpl in Hds. apply andb_prop in Hds as [Hc Hds].
    rewrite Hc, (IH Hds). reflexivity.
Qed.

Lemma app_empty_r (s : string) : s ++ "" = s.
Proof.
  induction s as [|c s IH]; [reflexivity|].
  change (String c (s ++ "") = String c s). f_equal. exact IH.
Qed.

Lemma span_digits_all ds : all_digits ds = true -> span_digits ds = (ds, "").
Proof.
  intros Hds. rewrite <- (app_empty_r ds) at 1. apply span_digits_app; auto.
Qed.

Lemma is_digit_cases c :
  is_digit c = true ->
  (c = "0" \/ c = "1" \/ c = "2" \/ c = "3" \/ c = "4" \/
   c = "5" \/ c = "6" \/ c = "7" \/ c = "8" \/ c = "9")%char.
Proof.
  destruct c as [[] [] [] [] [] [] [] []]; intros Hc; try discriminate Hc; tauto.
Qed.

Lemma parse_sign_digit s c r :
  is_digit c = true ->
  parse_sign (sign_str s ++ String c r) = (s, String c r).
Proof.
  intros Hc. destruct s; simpl; [reflexivity|].
  destruct (is_digit_cases c Hc) as [->|[->|[->|[->|[->|[->|[->|[->|[->| ->]]]]]]]]];
    reflexivity.
Qed.

Lemma int_of_digits_zeros k s : int_of_digits (zeros k ++ s) = int_of_digits s.
Proof.
  induction k as [|k IH]; simpl; [reflexivity|].
  rewrite <- IH. unfold int_of_digits. simpl.
  destruct (NilEmpty.uint_of_string (zeros k ++ s)); reflexivity.
Qed.

Lemma parse_exponent_format z : parse_exponent (format_signed z) = Some z.
Proof.
  unfold parse_exponent, format_signed.
  destruct (Z.ltb_spec z 0); simpl;
    rewrite (span_digits_all _ (all_digits_digits _)), int_of_digits_digits;
    pose proof (digits_nonempty (Z.abs_N z));
    destruct (digits (Z.abs_N z)); try congruence; simpl; f_equal; lia.
Qed.


Lemma parse_number_text ip fp x :
  all_digits ip = true -> ip <> "" ->
  all_digits (default "" fp) = true ->
  parse_number (number_text ip fp x) =
    Some (int_of_digits (ip ++ default "" fp),
          default 0 x - Z.of_nat (String.length (default "" fp))).
Proof.
  intros Hip Hne Hfp. unfold parse_number, number_text.
  rewrite (span_digits_app ip) by (auto; destruct fp, x; reflexivity).
  assert (Hemp : is_empty ip = false) by (destruct ip; [congruence | reflexivity]).
  destruct fp as [f|]; simpl in Hfp |- *.
  - change ("" ++ ?a) with a.
    rewrite (span_digits_app f) by (auto; destruct x; reflexivity).
    rewrite Hemp. simpl.
    destruct x as [z|]; simpl.
    + change ("" ++ ?a) with a. rewrite parse_exponent_format. reflexivity.
    + reflexivity.
  - rewrite Hemp. simpl. rewrite app_empty_r.
    destruct x as [z|]; simpl.
    + change ("" ++ ?a) with a. rewrite parse_exponent_format, ?app_empty_r. reflexivity.
    + rewrite ?app_empty_r. reflexivity.
Qed.

(** ** Substrings *)

Lemma substring_all s : substring 0 (String.length s) s = s.
Proof. induction s as [|c s IH]; simpl; [reflexivity | rewrite IH; reflexivity]. Qed.

Lemma substring_split s : forall k, (k <= String.length s)%nat ->
  substring 0 k s ++ substring k (String.length s - k) s = s.
Proof.
  induction s as [|c s IH]; intros [|k] Hk; simpl in *; try lia; try reflexivity.
  - change ("" ++ ?a) with a. rewrite substring_all. reflexivity.
  - change (String c ?a ++ ?b) with (String c (a ++ b)). rewrite IH by lia. reflexivity.
Qed.

Lemma all_digits_substring s : forall a b,
  all_digits s = true -> all_digits (substring a b s) = true.
Proof.
  induction s as [|c s IH]; intros [|a] [|b] Hs; simpl in *; try reflexivity.
  - apply andb_prop in Hs as [Hc Hs]. rewrite Hc. apply IH, Hs.
  - apply andb_prop in Hs as [Hc Hs]. apply IH, Hs.
  - apply andb_prop in Hs as [Hc Hs]. apply IH, Hs.
Qed.

Lemma length_substring_prefix s : forall k, (k <= String.length s)%nat ->
  String.length (substring 0 k s) = k.
Proof.
  induction s as [|c s IH]; intros [|k] Hk; simpl in *; try lia.
  rewrite IH by lia. reflexivity.
Qed.

Lemma length_substring_suffix s : forall k, (k <= String.length s)%nat ->
  String.length (substring k (String.length s - k) s) = (String.length s - k)%nat.
Proof.
  induction s as [|c s IH]; intros [|k] Hk; simpl in *; try lia.
  - rewrite substring_all. reflexivity.
  - apply IH. lia.
Qed.

Lemma length_app (a b : string) :
  String.length (a ++ b) = (String.length a + String.length b)%nat.
Proof.
  induction a as [|c a IH]; [reflexivity|].
  change (String c a ++ b) with (String c (a ++ b)). simpl. rewrite IH. reflexivity.
Qed.

Lemma length_zeros k : String.length (zeros k) = k.
Proof. induction k; simpl; congruence. Qed.

Lemma no_space_format_signed z : no_space (format_signed z) = true.
Proof.
  unfold format_signed.
  destruct (z <? 0); simpl; apply all_digits_no_space, all_digits_digits.
Qed.

Lemma no_space_number_text ip fp x :
  all_digits ip = true -> all_digits (default "" fp) = true ->
  no_space (number_text ip fp x) = true.
Proof.
  intros Hip Hfp. unfold number_text. rewrite !no_space_app.
  rewrite (all_digits_no_space _ Hip).
  destruct fp as [f|], x as [z|]; simpl in *;
    change ("" ++ ?a) with a;
    rewrite ?(all_digits_no_space _ Hfp), ?no_space_format_signed; reflexivity.
Qed.

(** [Decimal(text)] on the text of a finite number. *)
Lemma from_str_number_text s ip fp x :
  all_digits ip = true -> ip <> "" ->
  all_digits (default "" fp) = true ->
  from_str (sign_str s ++ number_text ip fp x) =
    Returns (Finite s (int_of_digits (ip ++ default "" fp))
               (default 0 x - Z.of_nat (String.length (default "" fp)))).
Proof.
  intros Hip Hne Hfp. unfold from_str.
  rewrite strip_no_space.
  2:{ rewrite no_space_app, no_space_number_text by assumption.
      destruct s; reflexivity. }
  assert (Hhead : exists c r, is_digit c = true /\ number_text ip fp x = String c r).
  { destruct ip as [|c ip']; [congruence|]. simpl in Hip.
    apply andb_prop in Hip as [Hc _]. exists c. eexists. split; [exact Hc|].
    unfold number_text. reflexivity. }
  destruct Hhead as (c & r & Hc & Hr).
  rewrite Hr, (parse_sign_digit s c r Hc), <- Hr.
  rewrite parse_number_text by assumption. reflexivity.
Qed.

(** ** [Decimal(str(d)) = d] *)

Lemma len_length c : len c = Z.of_nat (String.length (digits c)).
Proof. reflexivity. Qed.

Lemma to_str_finite s c e :
  exists ip fp x,
    to_str (Finite s c e) = sign_str s ++ number_text ip fp x /\
    all_digits ip = true /\ ip <> "" /\ all_digits (default "" fp) = true /\
    int_of_digits (ip ++ default "" fp) = c /\
    default 0 x - Z.of_nat (String.length (default "" fp)) = e.
Proof.
  pose proof (len_pos c) as Hlen. pose proof (len_length c) as Hn.
  pose proof (all_digits_digits c) as Hds. pose proof (int_of_digits_digits c) as Hint.
  pose proof (digits_nonempty c) as Hne.
  unfold to_str. set (ds := digits c) in *. set (n := len c) in *.
  set (x := if e + n =? (if (e <=? 0) && (e + n >? -6) then e + n else 1)
            then None else Some (e + n - (if (e <=? 0) && (e + n >? -6) then e + n else 1))).
  assert (Hx : (if e + n =? (if (e <=? 0) && (e + n >? -6) then e + n else 1)
                then "" else "E" ++ format_signed (e + n - (if (e <=? 0) && (e + n >? -6) then e + n else 1)))
               = match x with Some z => "E" ++ format_signed z | None => "" end).
  { unfold x. destruct (e + n =? _); reflexivity. }
  rewrite Hx. clear Hx.
  assert (Hxv : default 0 x = e + n - (if (e <=? 0) && (e + n >? -6) then e + n else 1)).
  { unfold x. destruct (Z.eqb_spec (e + n) (if (e <=? 0) && (e + n >? -6) then e + n else 1));
      simpl; lia. }
  clearbody x.
  set (dp := if (e <=? 0) && (e + n >? -6) then e + n else 1) in *.
  assert (Hdp : dp = 1 \/ (dp = e + n /\ e <= 0)).
  { unfold dp. destruct (Z.leb_spec e 0); simpl; [|auto].
    destruct (e + n >? -6); auto. }
  clearbody dp.
  destruct (Z.leb_spec dp 0) as [Hdp0|Hdp0].
  - (* 0.000ddd *)
    exists "0", (Some (zeros (Z.to_nat (- dp)) ++ ds)), x. simpl default.
    repeat split; try discriminate.
    + rewrite all_digits_app, all_digits_zeros, Hds. reflexivity.
    + change ("0" ++ ?a) with (zeros 1 ++ a). rewrite !int_of_digits_zeros. exact Hint.
    + rewrite length_app, length_zeros. lia.
  - destruct (Z.geb_spec dp n) as [Hge|Hlt].
    + (* all digits before the point *)
      assert (dp = n) by lia. subst dp.
      exists ds, None, x. simpl default.
      replace (Z.to_nat (n - n)) with 0%nat by lia. simpl zeros.
      rewrite !app_empty_r. repeat split; auto. simpl. lia.
    + (* the point splits the digits *)
      assert (Hk : (Z.to_nat dp <= String.length ds)%nat) by lia.
      exists (substring 0 (Z.to_nat dp) ds),
        (Some (substring (Z.to_nat dp) (Z.to_nat (n - dp)) ds)), x. simpl default.
      replace (Z.to_nat (n - dp)) with (String.length ds - Z.to_nat dp)%nat by lia.
      rewrite (substring_split ds _ Hk).
      repeat split; auto using all_digits_substring.
      * intros Hemp. apply (f_equal String.length) in Hemp.
        rewrite length_substring_prefix in Hemp by assumption. simpl in Hemp. lia.
      * rewrite length_substring_suffix by assumption. lia.
Qed.

Lemma lower_string_digits s : all_digits s = true -> lower_string s = s.
Proof.
  induction s as [|c s IH]; simpl; [reflexivity|].
  intros [Hc Hs]%andb_prop. rewrite (IH Hs). f_equal.
  destruct (is_digit_cases c Hc) as [->|[->|[->|[->|[->|[->|[->|[->|[->| ->]]]]]]]]];
    reflexivity.
Qed.

Lemma from_str_nan (s sg : bool) (p : N) :
  from_str (sign_str s ++ (if sg then "sNaN" else "NaN") ++ payload_str p) =
    Returns (NaN s sg p).
Proof.
  unfold payload_str. destruct (N.eqb_spec p 0) as [->|Hp].
  - destruct s, sg; reflexivity.
  - pose proof (all_digits_digits p) as Hd. pose proof (int_of_digits_digits p) as Hi.
    set (ds := digits p) in *. clearbody ds.
    unfold from_str. rewrite strip_no_space.
    2:{ rewrite !no_space_app, (all_digits_no_space _ Hd). destruct s, sg; reflexivity. }
    destruct s, sg; simpl; unfold parse_special; simpl;
      change ("" ++ ds) with ds;
      rewrite (lower_string_digits _ Hd), (span_digits_all _ Hd), Hi; reflexivity.
Qed.

(** Printing a [Decimal] and reading the text back gives the same
    [Decimal]. *)
Lemma from_str_to_str d : from_str (to_str d) = Returns d.
Proof.
  destruct d as [s c e|s|s sg p].
  - destruct (to_str_finite s c e) as (ip & fp & x & -> & Hip & Hne & Hfp & Hc & He).
    rewrite from_str_number_text by assumption. rewrite Hc, He. reflexivity.
  - destruct s; reflexivity.
  - pose proof (from_str_nan s sg p) as Hn. destruct sg; exact Hn.
Qed.

(** ** Rounding in [_fix] and the reciprocal *)




Lemma len_29 coeff : (P28 <= coeff < P29)%N -> len coeff = 29.
Proof. intros Hc. apply (len_unique coeff 28). exact Hc. Qed.

Lemma len_28 coeff : (P27 <= coeff < P28)%N -> len coeff = 28.
Proof. intros Hc. apply (len_unique coeff 27). exact Hc. Qed.

(** [_fix] on a 29-digit coefficient drops the last digit, rounding half
    to even. *)
Lemma fix_29 s coeff exp :
  (P28 <= coeff < P29)%N -> Etiny <= exp + 1 -> exp + 2 <= Etop ->
  _fix (Finite s coeff exp) =
    let a := (coeff / 10)%N in
    let dg := (coeff mod 10)%N in
    if negb ((dg =? 5)%N && N.even a) && (5 <=? dg)%N
    then if (a + 1 =? P28)%N then Returns (Finite s P27 (exp + 2))
         else Returns (Finite s (a + 1) (exp + 1))
    else Returns (Finite s a (exp + 1)).
Proof.
  intros Hc Hlo Hhi. pose proof (len_29 coeff Hc) as Hlen.
  unfold Etiny, Etop, Emin, Emax, prec in *.
  unfold _fix, _round_half_even. rewrite Hlen.
  unfold Etiny, Etop, Emin, Emax, prec.
  cbv zeta. decide_bool. cbv beta iota. decide_bool. cbv beta iota.
  rewrite Hlen.
  replace (29 + exp - (29 + exp - 28)) with 28 by lia.
  change (Z.to_N (29 - 28)) with 1%N. change (10 ^ 1)%N with 10%N.
  change (5 * 10 ^ (1 - 1))%N with 5%N. change (28 =? 0) with false.
  cbv beta iota zeta. simpl orb.
  set (a := (coeff / 10)%N). set (dg := (coeff mod 10)%N).
  assert (Ha : (P27 <= a < P28)%N) by (unfold a; divlia).
  assert (Hdg : (dg < 10)%N) by (unfold dg; divlia).
  destruct ((dg =? 5)%N && N.even a) eqn:Hhalf; simpl.
  - decide_bool. f_equal. f_equal. lia.
  - destruct (N.leb_spec 5 dg) as [H5|H5]; simpl.
    + destruct (N.eqb_spec (a + 1) P28) as [Heq|Hneq].
      * rewrite Heq. change (len P28) with 29. simpl. decide_bool.
        f_equal. f_equal; lia.
      * rewrite (len_28 (a + 1)) by lia. simpl. decide_bool.
        f_equal. f_equal. lia.
    + destruct (dg =? 0)%N; simpl; decide_bool; f_equal; f_equal; lia.
Qed.

(** [_fix] leaves a coefficient of at most [prec] digits alone when its
    exponent is in range. *)
Lemma fix_short s coeff exp :
  coeff <> 0%N -> len coeff <= 28 ->
  Etiny <= len coeff + exp - 28 <= Etop ->
  _fix (Finite s coeff exp) = Returns (Finite s coeff exp).
Proof.
  intros Hc Hlen Hrange. unfold Etiny, Etop, Emin, Emax, prec in *.
  unfold _fix. unfold Etiny, Etop, Emin, Emax, prec.
  cbv zeta. decide_bool. cbv beta iota. decide_bool. reflexivity.
Qed.

Lemma strip_zeros_spec n : forall coeff exp,
  coeff <> 0%N ->
  exists j, (j <= n)%nat /\
    coeff = (fst (strip_zeros n coeff exp) * 10 ^ N.of_nat j)%N /\
    snd (strip_zeros n coeff exp) = exp + Z.of_nat j /\
    (j = n \/ (fst (strip_zeros n coeff exp) mod 10 <> 0)%N).
Proof.
  induction n as [|n IH]; intros coeff exp Hc; simpl.
  - exists 0%nat. simpl. repeat split; auto; lia.
  - destruct (N.eqb_spec (coeff mod 10) 0) as [Hz|Hnz].
    + assert (Hc' : (coeff / 10)%N <> 0%N) by divlia.
      destruct (IH (coeff / 10)%N (exp + 1) Hc') as (j & Hj & Hq & He & Hstop).
      exists (S j). repeat split.
      * lia.
      * rewrite Nat2N.inj_succ, N.pow_succ_r'.
        assert (Hdiv : coeff = (10 * (coeff / 10))%N) by divlia.
        rewrite Hdiv at 1. rewrite Hq at 1. lia.
      * rewrite He. lia.
      * destruct Hstop as [->|Hs]; auto.
    + exists 0%nat. simpl. repeat split; auto; lia.
Qed.

Lemma pow10_split (L : Z) : 1 <= L ->
  (10 ^ Z.to_N (L - 1 + 28 + 1) = 10 ^ Z.to_N (L - 1) * P29)%N /\
  (10 ^ Z.to_N L = 10 ^ Z.to_N (L - 1) * 10)%N.
Proof.
  intros HL. split.
  - replace (Z.to_N (L - 1 + 28 + 1)) with (Z.to_N (L - 1) + 29)%N by lia.
    rewrite N.pow_add_r. reflexivity.
  - replace (Z.to_N L) with (Z.to_N (L - 1) + 1)%N by lia.
    rewrite N.pow_add_r. reflexivity.
Qed.

(** The quotient [10^(len c + 28) / c] has 29 digits, or is [10^29]
    exactly. *)
Lemma quotient_bounds (A c q r : N) :
  (A <= c < A * 10)%N -> (A * P29 = c * q + r)%N -> (r < c)%N ->
  (P28 <= q <= P29)%N /\ (q = P29 -> r = 0%N) /\ (r <> 0%N -> q < P29)%N.
Proof.
  intros [Hlo Hhi] Hq Hr.
  assert (H1 : (P28 <= q)%N).
  { destruct (N.le_gt_cases P28 q) as [|Hlt]; [assumption|exfalso].
    assert (c * (q + 1) <= c * P28)%N by (apply N.mul_le_mono_l; lia).
    lia. }
  assert (H2 : (q <= P29)%N).
  { destruct (N.le_gt_cases q P29) as [|Hgt]; [assumption|exfalso].
    assert (A * (P29 + 1) <= c * q)%N by (apply N.mul_le_mono; lia).
    lia. }
  assert (H3 : q = P29 -> r = 0%N).
  { intros ->. assert (A * P29 <= c * P29)%N by (apply N.mul_le_mono_r; lia). lia. }
  repeat split; auto. intros Hr0. destruct (N.eq_dec q P29) as [Heq|Hne]; [|lia].
  exfalso. auto.
Qed.

Lemma truediv_one_unfold s c e :
  c <> 0%N ->
  truediv (from_int 1) (Finite s c e) =
    let shift := len c - 1 + prec + 1 in
    let exp := 0 - e - shift in
    let '(coeff, remainder) := N.div_eucl (1 * 10 ^ Z.to_N shift) c in
    let '(coeff, exp) :=
      if negb (remainder =? 0)%N
      then ((if (coeff mod 5 =? 0)%N then coeff + 1 else coeff)%N, exp)
      else strip_zeros (Z.to_nat (0 - e - exp)) coeff exp in
    _fix (Finite s coeff exp).
Proof.
  intros Hc. unfold truediv.
  change (_check_nans (from_int 1) (Finite s c e)) with (Returns (@None Decimal)).
  cbv [mbind outcome_bind]. change (from_int 1) with (Finite false 1 0).
  cbv beta iota. rewrite (proj2 (N.eqb_neq c 0) Hc).
  change (1 =? 0)%N with false. cbv beta iota.
  change (len 1) with 1. change (xorb false s) with s.
  assert (Hs : (0 <=? len c - 1 + prec + 1) = true).
  { apply Z.leb_le. pose proof (len_pos c). unfold prec. lia. }
  cbv zeta. rewrite Hs. reflexivity.
Qed.

Lemma pow10_Z (L k : Z) : 1 <= L -> 0 <= k ->
  10 ^ (L - 1 + k) = Z.of_N (10 ^ Z.to_N (L - 1)) * 10 ^ k.
Proof.
  intros HL Hk. rewrite N2Z.inj_pow, Z2N.id by lia.
  rewrite Z.pow_add_r by lia. reflexivity.
Qed.

(** The inexact case: the quotient is truncated to 29 digits, made sticky,
    and rounded by [_fix]. *)
Lemma reciprocal_inexact s (A c q r : N) (L e : Z) :
  1 <= L -> A = (10 ^ Z.to_N (L - 1))%N ->
  (A <= c < A * 10)%N -> (A * P29 = c * q + r)%N -> (r < c)%N -> r <> 0%N ->
  Emin < e + L < Emax ->
  exists C E,
    _fix (Finite s (if (q mod 5 =? 0)%N then q + 1 else q)%N (0 - e - (L - 1 + 28 + 1)))
      = Returns (Finite s C E) /\
    (P27 <= C < P28)%N /\ 0 <= - E - e /\
    2 * Z.abs (10 ^ (- E - e) - Z.of_N C * Z.of_N c) < Z.of_N c /\
    10 ^ (- E - e) - Z.of_N C * Z.of_N c <> 0 /\
    (C = P27 -> - 20 * (10 ^ (- E - e) - Z.of_N C * Z.of_N c) <= Z.of_N c).
Proof.
  intros HL HA Hc Hq Hr Hr0 Hrange. unfold Emin, Emax in Hrange.
  destruct (quotient_bounds A c q r Hc Hq Hr) as ([Hq1 Hq2] & _ & Hq3).
  specialize (Hq3 Hr0).
  set (coeff := (if (q mod 5 =? 0)%N then q + 1 else q)%N).
  assert (Hcoeff : (P28 <= coeff < P29)%N).
  { unfold coeff. destruct (N.eqb_spec (q mod 5) 0); [divlia | lia]. }
  rewrite fix_29; [|assumption|unfold Etiny, Emin, prec; lia|unfold Etop, Emax, prec; lia].
  cbv zeta.
  set (a := (coeff / 10)%N). set (dg := (coeff mod 10)%N).
  assert (Hsplit : coeff = (10 * a + dg)%N /\ (dg < 10)%N) by (unfold a, dg; divlia).
  destruct Hsplit as [Hsplit Hdg]. clearbody a dg.
  assert (Hs : (q mod 5 = 0 /\ coeff = q + 1)%N \/ (q mod 5 <> 0 /\ coeff = q)%N).
  { unfold coeff. destruct (N.eqb_spec (q mod 5) 0); auto. }
  clearbody coeff.
  pose proof (pow10_Z L 28 HL ltac:(lia)) as HP28.
  pose proof (pow10_Z L 27 HL ltac:(lia)) as HP27.
  rewrite <- HA in HP28, HP27.
  change (10 ^ 28) with 10000000000000000000000000000 in HP28.
  change (10 ^ 27) with 1000000000000000000000000000 in HP27.
  assert (Hdigit : (dg = 0 \/ dg = 1 \/ dg = 2 \/ dg = 3 \/ dg = 4 \/ dg = 5 \/
                    dg = 6 \/ dg = 7 \/ dg = 8 \/ dg = 9)%N) by lia.
  destruct ((dg =? 5)%N && N.even a) eqn:Hhalf; simpl.
  - (* the sticky digit is never 5 *)
    apply andb_prop in Hhalf as [H5 _]. apply N.eqb_eq in H5. exfalso.
    destruct Hs as [[Hm Hs]|[Hm Hs]]; divlia.
  - destruct (N.leb_spec 5 dg) as [Hup|Hdown].
    + destruct (N.eqb_spec (a + 1) P28) as [Hcarry|Hnocarry].
      * exists P27, (0 - e - (L - 1 + 28 + 1) + 2). split; [reflexivity|].
        split; [lia|]. split; [lia|].
        replace (- (0 - e - (L - 1 + 28 + 1) + 2) - e) with (L - 1 + 27) by lia.
        rewrite HP27.
        split; [|split; [|intros _]];
        destruct Hs as [[Hm Hs]|[Hm Hs]];
          destruct Hdigit as [->|[->|[->|[->|[->|[->|[->|[->|[->| ->]]]]]]]]];
          try (exfalso; divlia); subst coeff; try lia;
          assert (q = 10 * a + 5)%N by lia; subst q; lia.
      * exists (a + 1)%N, (0 - e - (L - 1 + 28 + 1) + 1). split; [reflexivity|].
        split; [lia|]. split; [lia|].
        replace (- (0 - e - (L - 1 + 28 + 1) + 1) - e) with (L - 1 + 28) by lia.
        rewrite HP28.
        split; [|split; [|intros HC]];
        destruct Hs as [[Hm Hs]|[Hm Hs]];
          destruct Hdigit as [->|[->|[->|[->|[->|[->|[->|[->|[->| ->]]]]]]]]];
          try (exfalso; divlia); subst coeff; try lia;
          assert (q = 10 * a + 5)%N by lia; subst q; lia.
    + exists a, (0 - e - (L - 1 + 28 + 1) + 1). split; [reflexivity|].
      split; [lia|]. split; [lia|].
      replace (- (0 - e - (L - 1 + 28 + 1) + 1) - e) with (L - 1 + 28) by lia.
      rewrite HP28.
      split; [|split; [|intros HC]];
      destruct Hs as [[Hm Hs]|[Hm Hs]];
        destruct Hdigit as [->|[->|[->|[->|[->|[->|[->|[->|[->| ->]]]]]]]]];
        try (exfalso; divlia); subst coeff; try lia;
        assert (q = 10 * a)%N by lia; subst q; lia.
Qed.

Lemma pow10_pos (k : N) : (0 < 10 ^ k)%N.
Proof. pose proof (N.pow_nonzero 10 k). lia. Qed.

(** The exact case: trailing zeros are dropped and the quotient is the
    result, unless it still has 29 digits and is rounded by [_fix]. *)
Lemma reciprocal_exact s (A c q : N) (L e : Z) :
  1 <= L -> A = (10 ^ Z.to_N (L - 1))%N ->
  (A <= c < A * 10)%N -> (A * P29 = c * q)%N ->
  Emin < e + L < Emax ->
  let exp := 0 - e - (L - 1 + 28 + 1) in
  let '(coeff, exp') := strip_zeros (Z.to_nat (0 - e - exp)) q exp in
  exists C E,
    _fix (Finite s coeff exp') = Returns (Finite s C E) /\
    rounded_reciprocal c e C E.
Proof.
  intros HL HA Hc Hq Hrange exp. unfold Emin, Emax in Hrange.
  assert (Hc0 : (0 < c)%N) by (pose proof (pow10_pos (Z.to_N (L - 1))); lia).
  destruct (quotient_bounds A c q 0 Hc ltac:(lia) Hc0) as ([Hq1 Hq2] & _ & _).
  assert (Hq0 : q <> 0%N) by lia.
  replace (0 - e - exp) with (L + 28) by (unfold exp; lia).
  destruct (strip_zeros_spec (Z.to_nat (L + 28)) q exp Hq0) as (j & Hj & Hqj & He & Hstop).
  destruct (strip_zeros (Z.to_nat (L + 28)) q exp) as [q' exp'].
  simpl fst in *. simpl snd in *.
  pose proof (pow10_pos (N.of_nat j)) as Hpj.
  assert (Hq'0 : q' <> 0%N) by (intros ->; lia).
  pose proof (pow10_Z L 28 HL ltac:(lia)) as HP28.
  pose proof (pow10_Z L 27 HL ltac:(lia)) as HP27.
  rewrite <- HA in HP28, HP27.
  change (10 ^ 28) with 10000000000000000000000000000 in HP28.
  change (10 ^ 27) with 1000000000000000000000000000 in HP27.
  unfold rounded_reciprocal. cbv zeta.
  destruct (N.le_gt_cases P28 q') as [Hbig|Hsmall].
  - (* nothing was dropped: 29 digits, rounded by [_fix] *)
    assert (Hj0 : j = 0%nat).
    { destruct j as [|[|j]]; [reflexivity| |].
      - exfalso. change (10 ^ N.of_nat 1)%N with 10%N in Hqj.
        destruct Hstop as [Hn|Hn]; [lia|]. apply Hn. divlia.
      - exfalso. rewrite !Nat2N.inj_succ, !N.pow_succ_r' in Hqj.
        pose proof (pow10_pos (N.of_nat j)). nia. }
    subst j. change (10 ^ N.of_nat 0)%N with 1%N in Hqj.
    assert (q' = q) by lia. subst q'.
    destruct Hstop as [Hn|Hn]; [lia|].
    assert (Hq29 : (P28 <= q < P29)%N) by divlia.
    rewrite He. replace (exp + Z.of_nat 0) with exp by lia.
    rewrite fix_29;
      [|assumption|unfold exp, Etiny, Emin, prec; lia|unfold exp, Etop, Emax, prec; lia].
    cbv zeta.
    set (a := (q / 10)%N). set (dg := (q mod 10)%N).
    assert (Hsplit : q = (10 * a + dg)%N /\ (dg < 10)%N /\ dg <> 0%N)
      by (unfold a, dg; divlia).
    destruct Hsplit as (Hsplit & Hdg & Hdg0).
    clearbody a dg. subst q.
    assert (Hdigit : (dg = 1 \/ dg = 2 \/ dg = 3 \/ dg = 4 \/ dg = 5 \/
                      dg = 6 \/ dg = 7 \/ dg = 8 \/ dg = 9)%N) by lia.
    destruct ((dg =? 5)%N && N.even a) eqn:Hhalf; simpl.
    + (* a tie, and the kept digits are even *)
      apply andb_prop in Hhalf as [H5 Heven]. apply N.eqb_eq in H5. subst dg.
      exists a, (exp + 1). split; [reflexivity|].
      split; [unfold exp; lia|]. split; [lia|]. right.
      replace (- (exp + 1) - e) with (L - 1 + 28) by (unfold exp; lia).
      rewrite HP28. split; [lia|]. split; [lia|]. split; [lia|].
      split; [intros _; exact Heven | lia].
    + destruct (N.leb_spec 5 dg) as [Hup|Hdown].
      * destruct (N.eqb_spec (a + 1) P28) as [Hcarry|Hnocarry].
        -- exists P27, (exp + 2). split; [reflexivity|].
           split; [unfold exp; lia|]. split; [lia|]. right.
           replace (- (exp + 2) - e) with (L - 1 + 27) by (unfold exp; lia).
           rewrite HP27. split; [lia|].
           split; [|split; [|split; [intros Htie; exfalso|intros _]]];
             destruct Hdigit as [->|[->|[->|[->|[->|[->|[->|[->| ->]]]]]]]]; lia.
        -- exists (a + 1)%N, (exp + 1). split; [reflexivity|].
           split; [unfold exp; lia|]. split; [lia|]. right.
           replace (- (exp + 1) - e) with (L - 1 + 28) by (unfold exp; lia).
           rewrite HP28. split; [lia|].
           split; [|split; [|split; [intros Htie|intros HC; lia]]];
             destruct Hdigit as [->|[->|[->|[->|[->|[->|[->|[->| ->]]]]]]]];
             try lia.
           simpl in Hhalf.
           rewrite N.add_1_r, N.even_succ, <- N.negb_even, Hhalf. reflexivity.
      * exists a, (exp + 1). split; [reflexivity|].
        split; [unfold exp; lia|]. split; [lia|]. right.
        replace (- (exp + 1) - e) with (L - 1 + 28) by (unfold exp; lia).
        rewrite HP28. split; [lia|].
        split; [|split; [|split; [intros Htie; exfalso|intros _]]];
          destruct Hdigit as [->|[->|[->|[->|[->|[->|[->|[->| ->]]]]]]]]; lia.
  - (* at most 28 digits are left: the quotient is exact *)
    assert (Hj29 : (j <= 29)%nat).
    { destruct (Nat.le_gt_cases j 29) as [|Hgt]; [assumption|exfalso].
      assert (10 ^ 30 <= 10 ^ N.of_nat j)%N by (apply N.pow_le_mono_r; lia).
      change (10 ^ 30)%N with (10 * P29)%N in *. nia. }
    assert (Hlen_hi : len q' + Z.of_nat j <= 30).
    { assert (Hlt : (q' < 10 ^ (30 - N.of_nat j))%N).
      { apply (N.mul_lt_mono_pos_r (10 ^ N.of_nat j)); [assumption|].
        rewrite <- N.pow_add_r. replace (30 - N.of_nat j + N.of_nat j)%N with 30%N by lia.
        change (10 ^ 30)%N with (10 * P29)%N. lia. }
      pose proof (len_lt_pow q' _ Hlt ltac:(lia)). lia. }
    assert (Hlen_lo : 29 <= len q' + Z.of_nat j).
    { pose proof (len_pos q').
      destruct (Nat.le_gt_cases j 28) as [Hle|Hgt]; [|lia].
      assert (Hge : (10 ^ (28 - N.of_nat j) <= q')%N).
      { apply (N.mul_le_mono_pos_r _ _ (10 ^ N.of_nat j)); [assumption|].
        rewrite <- N.pow_add_r. replace (28 - N.of_nat j + N.of_nat j)%N with 28%N by lia.
        change (10 ^ 28)%N with P28. lia. }
      pose proof (len_ge_pow q' _ Hge). lia. }
    assert (Hlen28 : len q' <= 28) by (apply (len_lt_pow q' 28); [exact Hsmall | lia]).
    rewrite fix_short; [|assumption|assumption|
      rewrite He; unfold exp, Etiny, Etop, Emin, Emax, prec; lia].
    exists q', exp'. split; [reflexivity|].
    assert (Hexact : 10 ^ (- exp' - e) = Z.of_N q' * Z.of_N c).
    { rewrite He. replace (- (exp + Z.of_nat j) - e) with (L + 28 - Z.of_nat j)
        by (unfold exp; lia).
      apply (Z.mul_cancel_r _ _ (10 ^ Z.of_nat j)).
      { pose proof (Z.pow_pos_nonneg 10 (Z.of_nat j)). lia. }
      rewrite <- Z.pow_add_r by lia.
      replace (L + 28 - Z.of_nat j + Z.of_nat j) with (L - 1 + 29) by lia.
      rewrite (pow10_Z L 29 HL) by lia. rewrite <- HA.
      change (10 ^ 29) with (Z.of_N P29).
      replace (10 ^ Z.of_nat j) with (Z.of_N (10 ^ N.of_nat j)).
      2:{ rewrite N2Z.inj_pow. f_equal. lia. }
      rewrite <- !N2Z.inj_mul. f_equal. lia. }
    split; [rewrite He; unfold exp; lia|]. split; [assumption|]. left.
    split; [lia|].
    destruct Hstop as [Hn|Hn]; [|exact Hn].
    (* every zero was dropped: the quotient was [10^29], and 1 is left *)
    assert (Hj' : j = 29%nat) by lia. rewrite Hj' in Hqj.
    change (10 ^ N.of_nat 29)%N with P29 in Hqj.
    assert (q' = 1%N) by lia. subst q'. discriminate.
Qed.

(** [Decimal(1) / d] for a finite non-zero [d = c * 10^e] well inside the
    exponent range is [1 / d] rounded to 28 significant digits, half to
    even. *)
Lemma reciprocal_rounded s c e :
  c <> 0%N -> Emin < e + len c < Emax ->
  exists C E,
    truediv (from_int 1) (Finite s c e) = Returns (Finite s C E) /\
    rounded_reciprocal c e C E.
Proof.
  intros Hc Hrange. rewrite truediv_one_unfold by assumption.
  pose proof (len_pos c) as HL. destruct (len_bounds c Hc) as [Hlo Hhi].
  destruct (pow10_split (len c) HL) as [HT HA].
  set (L := len c) in *. set (A := (10 ^ Z.to_N (L - 1))%N) in *.
  rewrite HA in Hhi. cbv zeta. unfold prec. rewrite N.mul_1_l, HT.
  pose proof (N.div_eucl_spec (A * P29) c) as Hspec.
  pose proof (N.mod_lt (A * P29) c Hc) as Hrem. unfold N.modulo in Hrem.
  destruct (N.div_eucl (A * P29) c) as [q r]. simpl in Hrem.
  destruct (N.eqb_spec r 0) as [->|Hr0]; simpl negb; cbv iota.
  - rewrite N.add_0_r in Hspec.
    pose proof (reciprocal_exact s A c q L e HL eq_refl (conj Hlo Hhi) Hspec Hrange) as Hex.
    cbv zeta in Hex.
    destruct (strip_zeros _ q _) as [q' exp']. exact Hex.
  - destruct (reciprocal_inexact s A c q r L e HL eq_refl (conj Hlo Hhi) Hspec Hrem Hr0 Hrange)
      as (C & E & Hfix & HC & HE & Hbound & Hne & Hlow).
    exists C, E. rewrite Hfix. split; [reflexivity|].
    unfold rounded_reciprocal. cbv zeta.
    split; [assumption|]. split; [lia|]. right.
    split; [lia|]. split; [assumption|]. split; [lia|]. split; [lia | assumption].
Qed.

(** Rounding half to even has one result: two coefficients for the scaled
    values [T] and [D * T], [D] a power of ten, that both meet the
    conditions of [rounded_reciprocal] are the same, at the same scale. *)
Lemma half_even_unique (c C C' T D : Z) :
  0 < c -> 0 < T ->
  0 <= C < 10000000000000000000000000000 ->
  0 <= C' < 10000000000000000000000000000 ->
  (D = 1 \/ exists m, 1 <= m /\ D = 10 * m) ->
  ((T - C * c = 0 /\ C mod 10 <> 0) \/
   (1000000000000000000000000000 <= C /\ T - C * c <> 0 /\
    2 * Z.abs (T - C * c) <= c /\
    (2 * Z.abs (T - C * c) = c -> C mod 2 = 0) /\
    (C = 1000000000000000000000000000 -> - 20 * (T - C * c) <= c))) ->
  ((D * T - C' * c = 0 /\ C' mod 10 <> 0) \/
   (1000000000000000000000000000 <= C' /\ D * T - C' * c <> 0 /\
    2 * Z.abs (D * T - C' * c) <= c /\
    (2 * Z.abs (D * T - C' * c) = c -> C' mod 2 = 0) /\
    (C' = 1000000000000000000000000000 -> - 20 * (D * T - C' * c) <= c))) ->
  C = C' /\ D = 1.
Proof.
  intros Hc HT HC HC' [->|(m & Hm & ->)] H H'.
  - (* the same scale *)
    split; [|reflexivity]. rewrite Z.mul_1_l in H'.
    destruct H as [[He _]|(_ & Hne & Hb & Htie & _)],
             H' as [[He' _]|(_ & Hne' & Hb' & Htie' & _)].
    + nia.
    + assert (C = C') by nia. subst C'. contradiction.
    + assert (C = C') by nia. subst C'. contradiction.
    + assert (Hnear : C' = C \/ C' = C + 1 \/ C = C' + 1) by nia.
      destruct Hnear as [->|[->| ->]]; [reflexivity| |]; exfalso.
      * assert (H1 : 2 * Z.abs (T - C * c) = c) by nia.
        assert (H2 : 2 * Z.abs (T - (C + 1) * c) = c) by nia.
        specialize (Htie H1). specialize (Htie' H2). divlia.
      * assert (H1 : 2 * Z.abs (T - (C' + 1) * c) = c) by nia.
        assert (H2 : 2 * Z.abs (T - C' * c) = c) by nia.
        specialize (Htie H1). specialize (Htie' H2). divlia.
  - (* a coarser and a finer scale *)
    exfalso.
    destruct H as [[He Hz]|(Hlo & Hne & Hb & Htie & Hlow)].
    + assert (HT' : 10 * m * T = 10 * m * C * c) by nia.
      destruct H' as [[He' Hz']|(_ & Hne' & Hb' & _)].
      * assert (C' = 10 * m * C) by nia. subst C'.
        apply Hz'. rewrite <- Z.mul_assoc, Z.mul_comm. apply Z.mod_mul. lia.
      * assert (C' = 10 * m * C) by nia. subst C'. apply Hne'. lia.
    + assert (Hbelow : 19999999999999999999999999999 * c <= 20 * T).
      { destruct (Z.eq_dec C 1000000000000000000000000000) as [HC27|HC27].
        - specialize (Hlow HC27). subst C. lia.
        - nia. }
      assert (HT' : 20 * T <= 2 * (10 * m * T)) by nia.
      destruct H' as [[He' _]|(_ & _ & Hb' & Htie' & _)].
      * nia.
      * assert (Habove : 2 * (10 * m * T) <= (2 * C' + 1) * c) by nia.
        assert (HC'' : C' = 9999999999999999999999999999) by nia.
        subst C'.
        assert (H1 : 2 * Z.abs (10 * m * T - 9999999999999999999999999999 * c) = c) by lia.
        specialize (Htie' H1). discriminate.
Qed.

Lemma rounded_reciprocal_scale c e C E C' E' :
  c <> 0%N -> - E - e <= - E' - e ->
  rounded_reciprocal c e C E -> rounded_reciprocal c e C' E' ->
  C' = C /\ E' = E.
Proof.
  intros Hc Hle (Hk & HC & H) (Hk' & HC' & H').
  set (k := - E - e) in *. set (k' := - E' - e) in *.
  assert (Hpow : 10 ^ k' = 10 ^ (k' - k) * 10 ^ k).
  { rewrite <- Z.pow_add_r by lia. f_equal. lia. }
  assert (HD : 10 ^ (k' - k) = 1 \/ exists m, 1 <= m /\ 10 ^ (k' - k) = 10 * m).
  { destruct (Z.eq_dec k' k) as [->|Hne].
    - left. rewrite Z.sub_diag. reflexivity.
    - right. exists (10 ^ (k' - k - 1)). split.
      + pose proof (Z.pow_pos_nonneg 10 (k' - k - 1)). lia.
      + rewrite <- Z.pow_succ_r by lia. f_equal. lia. }
  rewrite Hpow in H'.
  assert (HT : 0 < 10 ^ k) by (apply Z.pow_pos_nonneg; lia).
  assert (HZ : forall (X : N) (T : Z),
    (T - Z.of_N X * Z.of_N c = 0 /\ (X mod 10)%N <> 0%N) \/
    ((P27 <= X)%N /\ T - Z.of_N X * Z.of_N c <> 0 /\
     2 * Z.abs (T - Z.of_N X * Z.of_N c) <= Z.of_N c /\
     (2 * Z.abs (T - Z.of_N X * Z.of_N c) = Z.of_N c -> N.even X = true) /\
     (X = P27 -> - 20 * (T - Z.of_N X * Z.of_N c) <= Z.of_N c)) ->
    (T - Z.of_N X * Z.of_N c = 0 /\ Z.of_N X mod 10 <> 0) \/
    (1000000000000000000000000000 <= Z.of_N X /\ T - Z.of_N X * Z.of_N c <> 0 /\
     2 * Z.abs (T - Z.of_N X * Z.of_N c) <= Z.of_N c /\
     (2 * Z.abs (T - Z.of_N X * Z.of_N c) = Z.of_N c -> Z.of_N X mod 2 = 0) /\
     (Z.of_N X = 1000000000000000000000000000 ->
      - 20 * (T - Z.of_N X * Z.of_N c) <= Z.of_N c))).
  { intros X T [[He Hz]|(Hlo & Hne & Hb & Htie & Hlow)].
    - left. split; [exact He|]. intros Hm. apply Hz.
      apply N2Z.inj. rewrite N2Z.inj_mod. exact Hm.
    - right. split; [lia|]. split; [exact Hne|]. split; [exact Hb|]. split.
      + intros Ht. specialize (Htie Ht). apply N.even_spec in Htie as [h ->].
        rewrite N2Z.inj_mul, Z.mul_comm. apply Z.mod_mul. lia.
      + intros HC27. apply Hlow. lia. }
  destruct (half_even_unique (Z.of_N c) (Z.of_N C) (Z.of_N C') (10 ^ k) (10 ^ (k' - k))
              ltac:(lia) HT ltac:(lia) ltac:(lia) HD (HZ _ _ H) (HZ _ _ H'))
    as [HCC HD1].
  split; [lia|].
  destruct (Z.eq_dec k' k) as [Heq|Hne]; [unfold k, k' in Heq; lia|exfalso].
  assert (10 ^ 1 <= 10 ^ (k' - k)) by (apply Z.pow_le_mono_r; lia).
  change (10 ^ 1) with 10 in *. lia.
Qed.

(** The conditions of [rounded_reciprocal] determine the result. *)
Lemma rounded_reciprocal_unique c e C E C' E' :
  c <> 0%N ->
  rounded_reciprocal c e C E -> rounded_reciprocal c e C' E' ->
  C' = C /\ E' = E.
Proof.
  intros Hc H H'. destruct (Z.le_ge_cases (- E - e) (- E' - e)) as [Hle|Hge].
  - apply (rounded_reciprocal_scale c e); assumption.
  - destruct (rounded_reciprocal_scale c e C' E' C E Hc Hge H' H) as [-> ->].
    split; reflexivity.
Qed.

(** ** Errors of the decimal operations *)

Lemma _fix_Raises d e : _fix d = Raises e -> e = Overflow.
Proof.
  unfold _fix. destruct d as [s c x| |]; try discriminate.
  repeat match goal with
  | |- context [if ?b then _ else _] => destruct b
  | |- context [let '(_, _) := ?p in _] => destruct p
  end; congruence.
Qed.

Lemma _check_nans_Raises a b e : _check_nans a b = Raises e -> e = InvalidOperation.
Proof.
  unfold _check_nans.
  destruct a as [? ? ?|?|? [] ?], b as [? ? ?|?|? [] ?]; congruence.
Qed.

Lemma _check_nans_None a b :
  _check_nans a b = Returns None -> is_nan a = false /\ is_nan b = false.
Proof.
  destruct a as [? ? ?|?|? [] ?], b as [? ? ?|?|? [] ?]; simpl; try discriminate; auto.
Qed.

(** Division raises [DivisionByZero] exactly on a finite non-zero dividend
    and a finite zero divisor. *)
Lemma truediv_DivisionByZero a b :
  truediv a b = Raises DivisionByZero <->
  exists s1 c1 e1 s2 e2,
    a = Finite s1 c1 e1 /\ c1 <> 0%N /\ b = Finite s2 0 e2.
Proof.
  split.
  - unfold truediv. intros Hd.
    destruct (_check_nans a b) as [[r|]|e] eqn:Hn; cbv [mbind outcome_bind] in Hd; try discriminate.
    + destruct a as [s1 c1 e1|s1|], b as [s2 c2 e2|s2|]; try discriminate.
      destruct (N.eqb_spec c2 0) as [->|Hc2].
      * destruct (N.eqb_spec c1 0) as [->|Hc1]; [discriminate|].
        exists s1, c1, e1, s2, e2. auto.
      * destruct (c1 =? 0)%N.
        -- apply _fix_Raises in Hd. discriminate.
        -- repeat match type of Hd with
           | context [let '(_, _) := ?p in _] => destruct p
           end.
           apply _fix_Raises in Hd. discriminate.
    + injection Hd as ->. apply _check_nans_Raises in Hn. discriminate.
  - intros (s1 & c1 & e1 & s2 & e2 & -> & Hc & ->).
    unfold truediv. simpl. destruct (N.eqb_spec c1 0); [contradiction | reflexivity].
Qed.

Lemma from_str_zero : from_str "0" = Returns (Finite false 0 0).
Proof. reflexivity. Qed.

Lemma from_str_str_int z : from_str (str_int z) = Returns (from_int z).
Proof.
  pose proof (from_str_number_text (z <? 0) (digits (Z.abs_N z)) None None
                (all_digits_digits _) (digits_nonempty _) eq_refl) as Hn.
  unfold number_text in Hn. simpl default in Hn. rewrite !app_empty_r in Hn.
  rewrite int_of_digits_digits in Hn.
  unfold str_int, from_int. destruct (z <? 0); exact Hn.
Qed.

(** ** The resolver *)

Section resolver.
Context {Currency Date Float : Type}.
Context {hash_currency : Hash Currency} {hash_date : Hash (option Date)}.
Context {str_float : Str Float}.
Variable module_get_exchange_rate :
  Currency -> Currency -> option Date -> outcome value.

Lemma falsy_lookup_truthy o : falsy_lookup o -> truthy (of_lookup o) = false.
Proof. intros [->| ->]; reflexivity. Qed.

(** A non-empty direct entry decides the result. *)
Lemma get_direct self b t ind date s :
  MemoryExchangeRates.get_exchange_rate (ExchangeRates.store self) b t date = Some s ->
  s <> "" ->
  ExchangeRates.get_exchange_rate module_get_exchange_rate self b t ind date =
    d ← from_str s; Returns (VDecimal d).
Proof.
  intros Hl Hs. unfold ExchangeRates.get_exchange_rate. rewrite Hl.
  destruct s; [congruence | reflexivity].
Qed.

(** Without a direct entry, a non-empty inverse entry decides it. *)
Lemma get_inverse self b t ind date s :
  falsy_lookup (MemoryExchangeRates.get_exchange_rate (ExchangeRates.store self) b t date) ->
  MemoryExchangeRates.get_exchange_rate (ExchangeRates.store self) t b date = Some s ->
  s <> "" ->
  ExchangeRates.get_exchange_rate module_get_exchange_rate self b t ind date =
    d ← from_str s; q ← truediv (from_int 1) d; Returns (VDecimal q).
Proof.
  intros Hd Hl Hs. unfold ExchangeRates.get_exchange_rate.
  rewrite (falsy_lookup_truthy _ Hd), Hl.
  destruct s; [congruence | reflexivity].
Qed.

(** Without either, a supplied indirection currency reaches
    [self.currency]. *)
Lemma get_indirection self b t ic date :
  falsy_lookup (MemoryExchangeRates.get_exchange_rate (ExchangeRates.store self) b t date) ->
  falsy_lookup (MemoryExchangeRates.get_exchange_rate (ExchangeRates.store self) t b date) ->
  ExchangeRates.get_exchange_rate module_get_exchange_rate self b t (Some ic) date =
    Raises (AttributeError "currency").
Proof.
  intros Hd Hi. unfold ExchangeRates.get_exchange_rate.
  rewrite (falsy_lookup_truthy _ Hd), (falsy_lookup_truthy _ Hi). reflexivity.
Qed.

(** Without either and without indirection, the direct lookup's result is
    handed back. *)
Lemma get_absent self b t date :
  falsy_lookup (MemoryExchangeRates.get_exchange_rate (ExchangeRates.store self) b t date) ->
  falsy_lookup (MemoryExchangeRates.get_exchange_rate (ExchangeRates.store self) t b date) ->
  ExchangeRates.get_exchange_rate module_get_exchange_rate self b t None date =
    Returns (of_lookup
               (MemoryExchangeRates.get_exchange_rate (ExchangeRates.store self) b t date)).
Proof.
  intros Hd Hi. unfold ExchangeRates.get_exchange_rate.
  rewrite (falsy_lookup_truthy _ Hd), (falsy_lookup_truthy _ Hi). reflexivity.
Qed.

Lemma falsy_lookup_cases (o : option string) :
  falsy_lookup o \/ exists s, o = Some s /\ s <> "".
Proof.
  destruct o as [[|c s]|].
  - left. right. reflexivity.
  - right. eexists. split; [reflexivity | discriminate].
  - left. left. reflexivity.
Qed.

(** The lookup after an insertion through the store. *)
Lemma lookup_add (st : MemoryExchangeRates.t) (b t : Currency) (date : option Date) s :
  MemoryExchangeRates.get_exchange_rate
    (MemoryExchangeRates.add_exchange_rate st b t s date) b t date = Some s.
Proof.
  unfold MemoryExchangeRates.get_exchange_rate, MemoryExchangeRates.add_exchange_rate.
  simpl. apply lookup_insert_eq.
Qed.

(** [get_exchange_rate] raises [DivisionByZero] exactly when the direct
    entry is missing or empty and the inverse entry reads as a zero. *)
Lemma get_DivisionByZero self b t ind date :
  ExchangeRates.get_exchange_rate module_get_exchange_rate self b t ind date
    = Raises DivisionByZero <->
  falsy_lookup (MemoryExchangeRates.get_exchange_rate (ExchangeRates.store self) b t date) /\
  exists s sg e,
    MemoryExchangeRates.get_exchange_rate (ExchangeRates.store self) t b date = Some s /\
    from_str s = Returns (Finite sg 0 e).
Proof.
  split.
  - intros Hget.
    destruct (falsy_lookup_cases
                (MemoryExchangeRates.get_exchange_rate (ExchangeRates.store self) b t date))
      as [Hd|(s & Hs & Hne)].
    + split; [assumption|].
      destruct (falsy_lookup_cases
                  (MemoryExchangeRates.get_exchange_rate (ExchangeRates.store self) t b date))
        as [Hi|(s & Hs & Hne)].
      * destruct ind as [ic|].
        -- rewrite get_indirection in Hget by assumption. discriminate.
        -- rewrite get_absent in Hget by assumption. discriminate.
      * rewrite (get_inverse _ _ _ _ _ s Hd Hs Hne) in Hget.
        destruct (from_str s) as [d|x] eqn:Hp.
        -- cbv [mbind outcome_bind] in Hget.
           destruct (truediv (from_int 1) d) as [q|x] eqn:Hq; [discriminate|].
           injection Hget as ->.
           apply truediv_DivisionByZero in Hq
             as (s1 & c1 & e1 & s2 & e2 & _ & _ & ->).
           exists s, s2, e2. auto.
        -- apply from_str_Raises in Hp. subst x. discriminate.
    + rewrite (get_direct _ _ _ _ _ s Hs Hne) in Hget.
      destruct (from_str s) as [d|x] eqn:Hp; [discriminate|].
      apply from_str_Raises in Hp. subst x. discriminate.
  - intros (Hd & s & sg & e & Hs & Hp).
    assert (Hne : s <> "") by (intros ->; discriminate).
    rewrite (get_inverse _ _ _ _ _ s Hd Hs Hne), Hp. reflexivity.
Qed.

(** C1 (the code departs from it): with no direct and no inverse entry for
    (base, target, date), and both legs through the indirection currency
    resolvable, [get_exchange_rate] does not return the product of the two
    legs: it raises [AttributeError] on [self.currency]. *)
Theorem indirection_raises_AttributeError self b t ic date x y :
  MemoryExchangeRates.get_exchange_rate (ExchangeRates.store self) b t date = None ->
  MemoryExchangeRates.get_exchange_rate (ExchangeRates.store self) t b date = None ->
  ExchangeRates.get_exchange_rate module_get_exchange_rate self b ic None date
    = Returns (VDecimal x) ->
  ExchangeRates.get_exchange_rate module_get_exchange_rate self ic t None date
    = Returns (VDecimal y) ->
  ExchangeRates.get_exchange_rate module_get_exchange_rate self b t (Some ic) date
    = Raises (AttributeError "currency").
Proof.
  intros Hd Hi _ _. apply get_indirection; left; assumption.
Qed.

(** C2, as amended: a rate whose string form is not a decimal numeral makes
    [ExchangeRate] raise [InvalidOperation] at construction; the resolver's
    [add_exchange_rate] does not parse it, returns normally and stores the
    string as given, and the error comes when the entry is read back. *)
Theorem malformed_rate (r : rate_arg Float) e :
  from_str (str r) = Raises e ->
  (forall (cf ct : Currency) (date : option Date),
     ExchangeRate.__new__ cf ct r date = Raises InvalidOperation) /\
  (forall self b t date,
     exists self',
       ExchangeRates.add_exchange_rate self b t r date = Returns self' /\
       MemoryExchangeRates.get_exchange_rate (ExchangeRates.store self') b t date
         = Some (str r) /\
       (str r <> "" -> forall ind,
          ExchangeRates.get_exchange_rate module_get_exchange_rate self' b t ind date
            = Raises InvalidOperation)).
Proof.
  intros Hr. pose proof (from_str_Raises _ _ Hr) as ->. split.
  - intros cf ct date. unfold ExchangeRate.__new__.
    destruct r as [s|z|f|d]; try (rewrite Hr; reflexivity).
    change (str (RDecimal d)) with (to_str d) in Hr.
    rewrite from_str_to_str in Hr. discriminate.
  - intros self b t date. eexists. split; [reflexivity|]. split.
    + apply lookup_add.
    + intros Hne ind. rewrite (get_direct _ _ _ _ _ (str r)).
      * rewrite Hr. reflexivity.
      * apply lookup_add.
      * assumption.
Qed.

(** C3, as amended: [remove_exchange_rate(base, target, date)] of the store
    deletes the entries at both (base, target, date) and
    (target, base, date), and leaves the entry at every other key as it
    was. *)
Theorem remove_exchange_rate_frame (st : MemoryExchangeRates.t) (b t : Currency)
    (date : option Date) :
  MemoryExchangeRates.get_exchange_rate
    (MemoryExchangeRates.remove_exchange_rate st b t date) b t date = None /\
  MemoryExchangeRates.get_exchange_rate
    (MemoryExchangeRates.remove_exchange_rate st b t date) t b date = None /\
  forall k, k <> MemoryExchangeRates._get_key b t date ->
            k <> MemoryExchangeRates._get_key t b date ->
    MemoryExchangeRates.rates (MemoryExchangeRates.remove_exchange_rate st b t date) !! k
      = MemoryExchangeRates.rates st !! k.
Proof.
  unfold MemoryExchangeRates.get_exchange_rate, MemoryExchangeRates.remove_exchange_rate.
  simpl. repeat split.
  - destruct (decide (MemoryExchangeRates._get_key t b date
                      = MemoryExchangeRates._get_key b t date)) as [->|Hne].
    + apply lookup_delete_eq.
    + rewrite lookup_delete_ne by assumption. apply lookup_delete_eq.
  - apply lookup_delete_eq.
  - intros k Hk1 Hk2. rewrite !lookup_delete_ne by congruence. reflexivity.
Qed.

(** C4, as amended: with no entry at (base, target, date) and
    (target, base, date) holding a rate that reads as a finite non-zero
    decimal [c * 10^e] well inside the exponent range,
    [get_exchange_rate(base, target, date)] returns [Decimal(1) / r] of the
    default context, which is [1 / r] rounded to 28 significant digits,
    half to even: the sign of [r]; a coefficient of at most 28 digits
    within half a unit of its last place of [1 / r]; the even coefficient
    when [1 / r] lies halfway between two; equal to [1 / r] when the
    coefficient has fewer than 28 digits; and the one pair of coefficient
    and exponent that meets the conditions of [rounded_reciprocal]. *)
Theorem inverse_rate_rounded self b t ind date r s c e :
  MemoryExchangeRates.get_exchange_rate (ExchangeRates.store self) b t date = None ->
  MemoryExchangeRates.get_exchange_rate (ExchangeRates.store self) t b date = Some r ->
  from_str r = Returns (Finite s c e) ->
  c <> 0%N -> Emin < e + len c < Emax ->
  exists C E,
    ExchangeRates.get_exchange_rate module_get_exchange_rate self b t ind date
      = Returns (VDecimal (Finite s C E)) /\
    (C < 10 ^ 28)%N /\ 0 <= - E - e /\
    2 * Z.abs (10 ^ (- E - e) - Z.of_N C * Z.of_N c) <= Z.of_N c /\
    (exact_reciprocal (Finite s c e) (Finite s C E) \/ (10 ^ 27 <= C)%N) /\
    (2 * Z.abs (10 ^ (- E - e) - Z.of_N C * Z.of_N c) = Z.of_N c ->
     N.even C = true) /\
    rounded_reciprocal c e C E /\
    (forall C' E', rounded_reciprocal c e C' E' -> C' = C /\ E' = E).
Proof.
  intros Hd Hi Hr Hc Hrange.
  destruct (reciprocal_rounded s c e Hc Hrange) as (C & E & Hq & Hround).
  exists C, E.
  assert (Hne : r <> "") by (intros ->; discriminate).
  rewrite (get_inverse _ _ _ _ _ r (or_introl Hd) Hi Hne), Hr.
  cbv [mbind outcome_bind]. rewrite Hq.
  change (10 ^ 28)%N with P28. change (10 ^ 27)%N with P27.
  split; [reflexivity|].
  pose proof Hround as (Hk & HC & Hcases). cbv zeta in Hcases.
  split; [exact HC|]. split; [exact Hk|].
  split; [destruct Hcases as [[He _]|(_ & _ & Hb & _)]; [rewrite He; simpl; lia | exact Hb]|].
  split.
  { destruct Hcases as [[He _]|(Hlo & _)]; [left | right; exact Hlo].
    simpl. split; [reflexivity|]. split; [lia|].
    replace (- (E + e)) with (- E - e) by lia. lia. }
  split.
  { destruct Hcases as [[He _]|(_ & _ & _ & Htie & _)]; [|exact Htie].
    rewrite He. simpl. lia. }
  split; [exact Hround|].
  intros C' E' Hround'. exact (rounded_reciprocal_unique c e C E C' E' Hc Hround Hround').
Qed.

(** C5: when both a direct entry for (base, target, date) and an entry for
    (target, base, date) exist, [get_exchange_rate(base, target, date)]
    returns the direct entry parsed as a decimal, whatever the other entry
    is. *)
Theorem direct_rate_wins self b t ind date s s' d :
  MemoryExchangeRates.get_exchange_rate (ExchangeRates.store self) b t date = Some s ->
  MemoryExchangeRates.get_exchange_rate (ExchangeRates.store self) t b date = Some s' ->
  from_str s = Returns d ->
  ExchangeRates.get_exchange_rate module_get_exchange_rate self b t ind date
    = Returns (VDecimal d).
Proof.
  intros Hs _ Hd. rewrite (get_direct _ _ _ _ _ s Hs).
  - rewrite Hd. reflexivity.
  - intros ->. discriminate.
Qed.

(** C6: for every rate from which an [ExchangeRate] can be built, adding it
    through the resolver and getting the same key back returns the decimal
    that [ExchangeRate] holds for that rate: a [Decimal] itself, the value
    of an integer, the number a string spells, the number a float prints
    as. *)
Theorem add_then_get self self' b t (r : rate_arg Float) date ind er :
  ExchangeRate.__new__ b t r date = Returns er ->
  ExchangeRates.add_exchange_rate self b t r date = Returns self' ->
  ExchangeRates.get_exchange_rate module_get_exchange_rate self' b t ind date
    = Returns (VDecimal (ExchangeRate.rate er)).
Proof.
  intros Hnew Hadd. unfold ExchangeRates.add_exchange_rate in Hadd.
  injection Hadd as <-.
  assert (Hp : from_str (str r) = Returns (ExchangeRate.rate er)).
  { unfold ExchangeRate.__new__ in Hnew.
    destruct r as [s|z|f|d];
      try (destruct (from_str (str _)) as [v|x]; [|discriminate];
           injection Hnew as <-; reflexivity).
    injection Hnew as <-. apply from_str_to_str. }
  rewrite (get_direct _ _ _ _ _ (str r)).
  - rewrite Hp. reflexivity.
  - apply lookup_add.
  - intros Hemp. rewrite Hemp in Hp. discriminate.
Qed.

(** C7 (the code departs from it): for a pair with no direct and no inverse
    entry, the store's lookup is [None] and [get_exchange_rate] without an
    indirection currency returns [None]; with an indirection currency
    supplied it does not return the sentinel but raises
    [AttributeError]. *)
Theorem absent_rate self b t date :
  MemoryExchangeRates.get_exchange_rate (ExchangeRates.store self) b t date = None ->
  MemoryExchangeRates.get_exchange_rate (ExchangeRates.store self) t b date = None ->
  ExchangeRates.get_exchange_rate module_get_exchange_rate self b t None date
    = Returns VNone /\
  forall ic,
    ExchangeRates.get_exchange_rate module_get_exchange_rate self b t (Some ic) date
      = Raises (AttributeError "currency").
Proof.
  intros Hd Hi. split.
  - rewrite get_absent by (left; assumption). rewrite Hd. reflexivity.
  - intros ic. apply get_indirection; left; assumption.
Qed.

(** C8: when nothing is stored for (X, X, date),
    [get_exchange_rate(X, X, date)] returns [None]; no call for that pair
    returns a decimal, so no implicit rate of one. *)
Theorem no_implicit_self_rate self X date :
  MemoryExchangeRates.get_exchange_rate (ExchangeRates.store self) X X date = None ->
  ExchangeRates.get_exchange_rate module_get_exchange_rate self X X None date
    = Returns VNone /\
  forall ind d,
    ExchangeRates.get_exchange_rate module_get_exchange_rate self X X ind date
      <> Returns (VDecimal d).
Proof.
  intros Hx. split.
  - rewrite get_absent by (left; assumption). rewrite Hx. reflexivity.
  - intros [ic|] d.
    + rewrite get_indirection by (left; assumption). discriminate.
    + rewrite get_absent by (left; assumption). rewrite Hx. discriminate.
Qed.

(** C9: the rate of every constructed [ExchangeRate] is the decimal that
    the string form of the input denotes, digit for digit, whatever the
    input's type; an integer gives its own value; and a float whose string
    form is "0.78" gives the same rate as the string "0.78", namely
    78 * 10^-2. *)
Theorem rate_normalized (cf ct : Currency) (date : option Date) :
  (forall (r : rate_arg Float) er,
     ExchangeRate.__new__ cf ct r date = Returns er ->
     from_str (str r) = Returns (ExchangeRate.rate er)) /\
  (forall z : Z,
     ExchangeRate.__new__ (Float := Float) cf ct (RInt z) date
       = Returns (ExchangeRate.mk cf ct (from_int z) date)) /\
  (forall f : Float, str f = "0.78" ->
     ExchangeRate.__new__ cf ct (RFloat f) date
       = Returns (ExchangeRate.mk cf ct (Finite false 78 (-2)) date) /\
     ExchangeRate.__new__ (Float := Float) cf ct (RStr "0.78") date
       = Returns (ExchangeRate.mk cf ct (Finite false 78 (-2)) date)).
Proof.
  split; [|split].
  - intros r er Hnew. unfold ExchangeRate.__new__ in Hnew.
    destruct r as [s|z|f|d];
      try (destruct (from_str (str _)) as [v|x]; [|discriminate];
           injection Hnew as <-; reflexivity).
    injection Hnew as <-. apply from_str_to_str.
  - intros z. unfold ExchangeRate.__new__.
    change (str (RInt z)) with (str_int z). rewrite from_str_str_int. reflexivity.
  - intros f Hf. split; [|reflexivity].
    unfold ExchangeRate.__new__. change (str (RFloat f)) with (str f).
    rewrite Hf. reflexivity.
Qed.

(** C10: with no entry at (base, target, date) and the string "0" stored at
    (target, base, date), [get_exchange_rate(base, target, date)] raises
    [DivisionByZero], and so does every stored string that reads as a zero;
    when every stored string that reads as a decimal reads as a non-zero
    one, it never raises [DivisionByZero]. *)
Theorem inverse_of_zero_raises self b t ind date :
  (MemoryExchangeRates.get_exchange_rate (ExchangeRates.store self) b t date = None ->
   MemoryExchangeRates.get_exchange_rate (ExchangeRates.store self) t b date = Some "0" ->
   ExchangeRates.get_exchange_rate module_get_exchange_rate self b t ind date
     = Raises DivisionByZero) /\
  (forall s sg e,
     MemoryExchangeRates.get_exchange_rate (ExchangeRates.store self) b t date = None ->
     MemoryExchangeRates.get_exchange_rate (ExchangeRates.store self) t b date = Some s ->
     from_str s = Returns (Finite sg 0 e) ->
     ExchangeRates.get_exchange_rate module_get_exchange_rate self b t ind date
       = Raises DivisionByZero) /\
  ((forall k s d,
      MemoryExchangeRates.rates (ExchangeRates.store self) !! k = Some s ->
      from_str s = Returns d -> to_bool d = true) ->
   ExchangeRates.get_exchange_rate module_get_exchange_rate self b t ind date
     <> Raises DivisionByZero).
Proof.
  split; [|split].
  - intros Hd Hi. apply get_DivisionByZero. split; [left; assumption|].
    exists "0", false, 0. split; [assumption | reflexivity].
  - intros s sg e Hd Hi Hp. apply get_DivisionByZero. split; [left; assumption|].
    exists s, sg, e. split; assumption.
  - intros Hnz Hget. apply get_DivisionByZero in Hget as (_ & s & sg & e & Hs & Hp).
    specialize (Hnz _ _ _ Hs Hp). discriminate.
Qed.

End resolver.

(** ** The claims on the concrete runtime *)

(** The product the indirection fallback is meant to return for legs of
    0.9 and 0.85. *)
Example product_of_legs :
  mul (Finite false 9 (-1)) (Finite false 85 (-2)) = Returns (Finite false 765 (-3)).
Proof. reflexivity. Qed.

(** USD -> EUR at 0.9 and EUR -> GBP at 0.85 are stored, USD -> GBP is asked
    through EUR: the call raises instead of returning 0.765. *)
Lemma indirection_raises_AttributeError_witness :
  ExchangeRates.get_exchange_rate iso.no_rate
    (iso.resolver_of [("EUR", "GBP", "0.85", None); ("USD", "EUR", "0.9", None)])
    "USD" "GBP" (Some "EUR") None
  = Raises (AttributeError "currency").
Proof.
  apply (indirection_raises_AttributeError iso.no_rate _ "USD" "GBP" "EUR" None
           (Finite false 9 (-1)) (Finite false 85 (-2))); reflexivity.
Defined.

(** C2 as stated fails: adding the rate "abc" through the resolver raises
    nothing and leaves the unparsed string in the store. *)
Lemma add_exchange_rate_stores_unparsable :
  from_str "abc" = Raises InvalidOperation /\
  exists self',
    ExchangeRates.add_exchange_rate (Float := float.binary64)
      (iso.resolver_of []) "USD" "EUR" (RStr "abc") None = Returns self' /\
    MemoryExchangeRates.get_exchange_rate (ExchangeRates.store self') "USD" "EUR" None
      = Some "abc".
Proof.
  split; [reflexivity|]. eexists. split; reflexivity.
Defined.

Lemma malformed_rate_witness :
  (forall date : option iso.Date,
     ExchangeRate.__new__ (Float := float.binary64) "USD" "EUR" (RStr "abc") date
       = Raises InvalidOperation) /\
  exists self',
    ExchangeRates.add_exchange_rate (Float := float.binary64)
      (iso.resolver_of []) "USD" "EUR" (RStr "abc") None = Returns self' /\
    ExchangeRates.get_exchange_rate iso.no_rate self' "USD" "EUR" None None
      = Raises InvalidOperation.
Proof.
  destruct (malformed_rate (Float := float.binary64) iso.no_rate (RStr "abc")
              InvalidOperation eq_refl) as [Hnew Hadd].
  split.
  - intros date. apply (Hnew "USD" "EUR" date).
  - destruct (Hadd (iso.resolver_of []) "USD" "EUR" None) as (self' & H1 & _ & H3).
    exists self'. split; [exact H1|]. apply H3. discriminate.
Defined.

(** C3 as stated fails: removing (USD, EUR) also deletes the entry stored
    for (EUR, USD). *)
Lemma remove_exchange_rate_drops_swapped :
  MemoryExchangeRates.get_exchange_rate
    (ExchangeRates.store
       (iso.resolver_of [("EUR", "USD", "1.2", None); ("USD", "EUR", "0.9", None)]))
    "EUR" "USD" None = Some "1.2" /\
  MemoryExchangeRates.get_exchange_rate
    (MemoryExchangeRates.remove_exchange_rate
       (ExchangeRates.store
          (iso.resolver_of [("EUR", "USD", "1.2", None); ("USD", "EUR", "0.9", None)]))
       "USD" "EUR" None)
    "EUR" "USD" None = None.
Proof.
  split; reflexivity.
Defined.

Lemma remove_exchange_rate_frame_witness :
  MemoryExchangeRates.rates
    (MemoryExchangeRates.remove_exchange_rate
       (ExchangeRates.store
          (iso.resolver_of [("EUR", "GBP", "0.85", None); ("USD", "EUR", "0.9", None)]))
       "USD" "EUR" None)
    !! MemoryExchangeRates._get_key "EUR" "GBP" (None : option iso.Date)
  = Some "0.85".
Proof.
  destruct (remove_exchange_rate_frame
              (ExchangeRates.store
                 (iso.resolver_of [("EUR", "GBP", "0.85", None); ("USD", "EUR", "0.9", None)]))
              "USD" "EUR" None) as (_ & _ & Hframe).
  rewrite Hframe; [reflexivity | discriminate | discriminate].
Defined.

(** C4 as stated fails: with 3 stored for EUR -> USD, USD -> EUR is
    0.3333333333333333333333333333, which is not 1/3 and not the
    27-digit numeral of the specification either. *)
Lemma inverse_of_three_not_exact :
  ExchangeRates.get_exchange_rate iso.no_rate
    (iso.resolver_of [("EUR", "USD", "3", None)]) "USD" "EUR" None None
  = Returns (VDecimal (Finite false 3333333333333333333333333333 (-28))) /\
  ~ exact_reciprocal (Finite false 3 0) (Finite false 3333333333333333333333333333 (-28)) /\
  from_str "0.333333333333333333333333333"
  = Returns (Finite false 333333333333333333333333333 (-27)).
Proof.
  split; [reflexivity|]. split; [|reflexivity].
  intros (_ & _ & Hx). vm_compute in Hx. discriminate Hx.
Defined.

(** 2199023255552 = 2^41 is stored for EUR -> USD: 1 / 2^41 is
    4.5474735088646411895751953125E-13, halfway between two 28-digit
    coefficients, and USD -> EUR is the even one. *)
Lemma inverse_rate_rounded_witness :
  ExchangeRates.get_exchange_rate iso.no_rate
    (iso.resolver_of [("EUR", "USD", "2199023255552", None)]) "USD" "EUR" None None
  = Returns (VDecimal (Finite false 4547473508864641189575195312 (-40))) /\
  2 * Z.abs (10 ^ 40 - 4547473508864641189575195312 * 2199023255552) = 2199023255552 /\
  N.even 4547473508864641189575195312 = true /\
  ~ rounded_reciprocal 2199023255552 0 4547473508864641189575195313 (-40).
Proof.
  destruct (inverse_rate_rounded iso.no_rate
              (iso.resolver_of [("EUR", "USD", "2199023255552", None)])
              "USD" "EUR" None None "2199023255552" false 2199023255552 0)
    as (C & E & Hget & _ & _ & _ & _ & Htie & _ & Hunique).
  - reflexivity.
  - reflexivity.
  - vm_compute. reflexivity.
  - discriminate.
  - vm_compute. split; reflexivity.
  - assert (Hrun : ExchangeRates.get_exchange_rate iso.no_rate
                     (iso.resolver_of [("EUR", "USD", "2199023255552", None)])
                     "USD" "EUR" None None
                   = Returns (VDecimal (Finite false 4547473508864641189575195312 (-40))))
      by (vm_compute; reflexivity).
    rewrite Hrun in Hget. injection Hget as <- <-.
    split; [exact Hrun|]. split; [vm_compute; reflexivity|].
    split; [apply Htie; vm_compute; reflexivity|].
    intros Hodd. destruct (Hunique _ _ Hodd) as [Heq _]. discriminate Heq.
Defined.

Lemma direct_rate_wins_witness :
  ExchangeRates.get_exchange_rate iso.no_rate
    (iso.resolver_of [("EUR", "USD", "1.2", None); ("USD", "EUR", "0.9", None)])
    "USD" "EUR" None None
  = Returns (VDecimal (Finite false 9 (-1))).
Proof.
  apply (direct_rate_wins iso.no_rate _ "USD" "EUR" None None "0.9" "1.2");
    reflexivity.
Defined.

Lemma add_then_get_witness :
  ExchangeRates.get_exchange_rate iso.no_rate
    (iso.resolver_of [("USD", "EUR", "0.78", None)]) "USD" "EUR" None None
  = Returns (VDecimal (Finite false 78 (-2))).
Proof.
  apply (add_then_get (Float := float.binary64) iso.no_rate (iso.resolver_of [])
           (iso.resolver_of [("USD", "EUR", "0.78", None)])
           "USD" "EUR" (RFloat iso.float_0_78) None None
           (ExchangeRate.mk "USD" "EUR" (Finite false 78 (-2)) None)).
  - vm_compute. reflexivity.
  - vm_compute. reflexivity.
Defined.

Lemma absent_rate_witness :
  ExchangeRates.get_exchange_rate iso.no_rate (iso.resolver_of []) "USD" "GBP" None None
    = Returns VNone /\
  ExchangeRates.get_exchange_rate iso.no_rate (iso.resolver_of []) "USD" "GBP"
    (Some "EUR") None = Raises (AttributeError "currency").
Proof.
  destruct (absent_rate iso.no_rate (iso.resolver_of []) "USD" "GBP" None eq_refl eq_refl)
    as [Hnone Hind].
  split; [exact Hnone | apply Hind].
Defined.

Lemma no_implicit_self_rate_witness :
  ExchangeRates.get_exchange_rate iso.no_rate
    (iso.resolver_of [("USD", "EUR", "0.9", None)]) "EUR" "EUR" None None
  = Returns VNone.
Proof.
  apply (no_implicit_self_rate iso.no_rate
           (iso.resolver_of [("USD", "EUR", "0.9", None)]) "EUR" None).
  reflexivity.
Defined.

Lemma rate_normalized_witness :
  str iso.float_0_78 = "0.78" /\
  ExchangeRate.__new__ "USD" "EUR" (RFloat iso.float_0_78) (None : option iso.Date)
    = Returns (ExchangeRate.mk "USD" "EUR" (Finite false 78 (-2)) None) /\
  ExchangeRate.__new__ (Float := float.binary64) "USD" "EUR" (RStr "0.78")
    (None : option iso.Date)
    = Returns (ExchangeRate.mk "USD" "EUR" (Finite false 78 (-2)) None).
Proof.
  assert (Hstr : str iso.float_0_78 = "0.78") by (vm_compute; reflexivity).
  split; [exact Hstr|].
  destruct (rate_normalized (Float := float.binary64) "USD" "EUR" (None : option iso.Date))
    as (_ & _ & Hfloat).
  apply (Hfloat iso.float_0_78 Hstr).
Defined.

Lemma inverse_of_zero_raises_witness :
  ExchangeRates.get_exchange_rate iso.no_rate
    (iso.resolver_of [("EUR", "USD", "0", None)]) "USD" "EUR" None None
  = Raises DivisionByZero.
Proof.
  destruct (inverse_of_zero_raises iso.no_rate
              (iso.resolver_of [("EUR", "USD", "0", None)]) "USD" "EUR" None None)
    as (Hzero & _ & _).
  apply Hzero; reflexivity.
Defined.

(** * Further properties *)

(** ** Errors and extremes of the division *)

Lemma truediv_Raises a b e :
  truediv a b = Raises e ->
  e = InvalidOperation \/ e = DivisionByZero \/ e = Overflow.
Proof.
  unfold truediv. intros Hd.
  destruct (_check_nans a b) as [[r|]|x] eqn:Hn; cbv [mbind outcome_bind] in Hd;
    try discriminate.
  - destruct a as [s1 c1 e1|s1|], b as [s2 c2 e2|s2|];
      try discriminate; try (injection Hd as <-; auto).
    destruct (c2 =? 0)%N.
    + destruct (c1 =? 0)%N; injection Hd as <-; auto.
    + destruct (c1 =? 0)%N.
      * apply _fix_Raises in Hd. auto.
      * repeat match type of Hd with
               | context [let '(_, _) := ?p in _] => destruct p
               end.
        apply _fix_Raises in Hd. auto.
  - injection Hd as <-. apply _check_nans_Raises in Hn. auto.
Qed.

(** [Decimal(1) / d] raises [InvalidOperation] exactly on a signaling
    NaN. *)
Lemma truediv_one_InvalidOperation d :
  truediv (from_int 1) d = Raises InvalidOperation <-> exists s p, d = NaN s true p.
Proof.
  split.
  - destruct d as [s c e|s|s [|] p].
    + intros Hd. exfalso. destruct (N.eq_dec c 0%N) as [->|Hc].
      * discriminate Hd.
      * rewrite truediv_one_unfold in Hd by assumption. cbv zeta in Hd.
        repeat match type of Hd with
               | context [let '(_, _) := ?p in _] => destruct p
               end.
        apply _fix_Raises in Hd. discriminate.
    + discriminate.
    + intros _. eauto.
    + discriminate.
  - intros (s & p & ->). reflexivity.
Qed.

Lemma fix_Overflow s coeff exp :
  coeff <> 0%N -> Etop < len coeff + exp - prec ->
  _fix (Finite s coeff exp) = Raises Overflow.
Proof.
  intros Hc Hbig. unfold _fix. rewrite (proj2 (N.eqb_neq coeff 0) Hc).
  cbv zeta. rewrite Z.gtb_ltb, (proj2 (Z.ltb_lt _ _) Hbig). reflexivity.
Qed.

(** The quotient of an exact division, its trailing zeros dropped, keeps at
    least the digits that the dropped zeros leave of 29. *)
Lemma strip_zeros_len (n : nat) (q : N) (exp : Z) :
  (P28 <= q)%N ->
  q <> 0%N /\ fst (strip_zeros n q exp) <> 0%N /\
  29 + exp <= len (fst (strip_zeros n q exp)) + snd (strip_zeros n q exp).
Proof.
  intros Hq. assert (Hq0 : q <> 0%N) by lia.
  destruct (strip_zeros_spec n q exp Hq0) as (j & _ & Hqj & He & _).
  destruct (strip_zeros n q exp) as [q' exp']. simpl fst in *. simpl snd in *.
  pose proof (pow10_pos (N.of_nat j)) as Hpj.
  assert (Hq'0 : q' <> 0%N) by (intros ->; lia).
  split; [assumption|]. split; [assumption|].
  pose proof (len_pos q'). rewrite He.
  destruct (Nat.le_gt_cases j 28) as [Hle|Hgt]; [|lia].
  assert (Hge : (10 ^ (28 - N.of_nat j) <= q')%N).
  { apply (N.mul_le_mono_pos_r _ _ (10 ^ N.of_nat j)); [assumption|].
    rewrite <- N.pow_add_r. replace (28 - N.of_nat j + N.of_nat j)%N with 28%N by lia.
    change (10 ^ 28)%N with P28. lia. }
  pose proof (len_ge_pow q' _ Hge). lia.
Qed.

(** [Decimal(1) / d] overflows for every finite non-zero [d = c * 10^e]
    below [10^Emin]. *)
Lemma reciprocal_Overflow s c e :
  c <> 0%N -> e + len c < Emin ->
  truediv (from_int 1) (Finite s c e) = Raises Overflow.
Proof.
  intros Hc Hsmall. rewrite truediv_one_unfold by assumption.
  pose proof (len_pos c) as HL. destruct (len_bounds c Hc) as [Hlo Hhi].
  destruct (pow10_split (len c) HL) as [HT HA].
  set (L := len c) in *. set (A := (10 ^ Z.to_N (L - 1))%N) in *.
  rewrite HA in Hhi. cbv zeta. unfold prec. rewrite N.mul_1_l, HT.
  pose proof (N.div_eucl_spec (A * P29) c) as Hspec.
  pose proof (N.mod_lt (A * P29) c Hc) as Hrem. unfold N.modulo in Hrem.
  destruct (N.div_eucl (A * P29) c) as [q r]. simpl in Hrem.
  destruct (quotient_bounds A c q r (conj Hlo Hhi) Hspec Hrem) as ([Hq1 Hq2] & _ & Hq3).
  unfold Emin in Hsmall.
  destruct (N.eqb_spec r 0) as [->|Hr0]; simpl negb; cbv iota.
  - destruct (strip_zeros_len (Z.to_nat (0 - e - (0 - e - (L - 1 + 28 + 1)))) q
                (0 - e - (L - 1 + 28 + 1)) Hq1) as (_ & Hq' & Hlen).
    destruct (strip_zeros _ q _) as [q' exp']. simpl fst in *. simpl snd in *.
    apply fix_Overflow; [assumption|]. unfold Etop, Emax, prec. lia.
  - specialize (Hq3 Hr0).
    set (coeff := (if (q mod 5 =? 0)%N then q + 1 else q)%N).
    assert (Hcoeff : (P28 <= coeff < P29)%N).
    { unfold coeff. destruct (N.eqb_spec (q mod 5) 0); [divlia | lia]. }
    apply fix_Overflow; [lia|]. rewrite (len_29 coeff Hcoeff).
    unfold Etop, Emax, prec. lia.
Qed.

Lemma fix_underflow s coeff exp :
  coeff <> 0%N -> len coeff + exp < Etiny ->
  _fix (Finite s coeff exp) = Returns (Finite s 0 Etiny).
Proof.
  intros Hc Hsmall. pose proof (len_pos coeff) as Hlen.
  unfold Etiny, Emin, prec in Hsmall.
  unfold _fix. rewrite (proj2 (N.eqb_neq coeff 0) Hc).
  unfold Etiny, Etop, Emin, Emax, prec.
  cbv zeta. decide_bool. cbv beta iota. decide_bool. cbv beta iota.
  decide_bool. reflexivity.
Qed.

Lemma strip_zeros_len_le (n : nat) (q : N) (exp : Z) :
  (P28 <= q <= P29)%N ->
  fst (strip_zeros n q exp) <> 0%N /\
  len (fst (strip_zeros n q exp)) + snd (strip_zeros n q exp) <= 30 + exp.
Proof.
  intros Hq. assert (Hq0 : q <> 0%N) by lia.
  destruct (strip_zeros_spec n q exp Hq0) as (j & _ & Hqj & He & _).
  destruct (strip_zeros n q exp) as [q' exp']. simpl fst in *. simpl snd in *.
  pose proof (pow10_pos (N.of_nat j)) as Hpj.
  assert (Hq'0 : q' <> 0%N) by (intros ->; lia).
  split; [assumption|]. rewrite He.
  assert (Hj29 : (j <= 29)%nat).
  { destruct (Nat.le_gt_cases j 29) as [|Hgt]; [assumption|exfalso].
    assert (10 ^ 30 <= 10 ^ N.of_nat j)%N by (apply N.pow_le_mono_r; lia).
    change (10 ^ 30)%N with (10 * P29)%N in *. nia. }
  assert (Hlt : (q' < 10 ^ (30 - N.of_nat j))%N).
  { apply (N.mul_lt_mono_pos_r (10 ^ N.of_nat j)); [assumption|].
    rewrite <- N.pow_add_r. replace (30 - N.of_nat j + N.of_nat j)%N with 30%N by lia.
    change (10 ^ 30)%N with (10 * P29)%N. lia. }
  pose proof (len_lt_pow q' _ Hlt ltac:(lia)). lia.
Qed.

(** [Decimal(1) / d] is a zero at the smallest exponent for every finite
    [d = c * 10^e] of more than [Emax + prec + 1] digits before the
    point. *)
Lemma reciprocal_underflow s c e :
  c <> 0%N -> Emax + prec + 1 < e + len c ->
  truediv (from_int 1) (Finite s c e) = Returns (Finite s 0 Etiny).
Proof.
  intros Hc Hbig. rewrite truediv_one_unfold by assumption.
  pose proof (len_pos c) as HL. destruct (len_bounds c Hc) as [Hlo Hhi].
  destruct (pow10_split (len c) HL) as [HT HA].
  set (L := len c) in *. set (A := (10 ^ Z.to_N (L - 1))%N) in *.
  rewrite HA in Hhi. cbv zeta. unfold prec. rewrite N.mul_1_l, HT.
  pose proof (N.div_eucl_spec (A * P29) c) as Hspec.
  pose proof (N.mod_lt (A * P29) c Hc) as Hrem. unfold N.modulo in Hrem.
  destruct (N.div_eucl (A * P29) c) as [q r]. simpl in Hrem.
  destruct (quotient_bounds A c q r (conj Hlo Hhi) Hspec Hrem) as ([Hq1 Hq2] & _ & Hq3).
  unfold Emax, prec in Hbig.
  destruct (N.eqb_spec r 0) as [->|Hr0]; simpl negb; cbv iota.
  - destruct (strip_zeros_len_le (Z.to_nat (0 - e - (0 - e - (L - 1 + 28 + 1)))) q
                (0 - e - (L - 1 + 28 + 1)) (conj Hq1 Hq2)) as (Hq' & Hlen).
    destruct (strip_zeros _ q _) as [q' exp']. simpl fst in *. simpl snd in *.
    apply fix_underflow; [assumption|]. unfold Etiny, Emin, prec. lia.
  - specialize (Hq3 Hr0).
    set (coeff := (if (q mod 5 =? 0)%N then q + 1 else q)%N).
    assert (Hcoeff : (P28 <= coeff < P29)%N).
    { unfold coeff. destruct (N.eqb_spec (q mod 5) 0); [divlia | lia]. }
    apply fix_underflow; [lia|]. rewrite (len_29 coeff Hcoeff).
    unfold Etiny, Emin, prec. lia.
Qed.

(** ** The store as a map *)

Section store.
Context {Currency Date : Type}.
Context {hash_currency : Hash Currency} {hash_date : Hash (option Date)}.

Lemma store_eq (st st' : MemoryExchangeRates.t) :
  MemoryExchangeRates.rates st = MemoryExchangeRates.rates st' -> st = st'.
Proof. destruct st, st'. simpl. intros ->. reflexivity. Qed.

(** X1: the lookup after an addition gives the added string at every key
    with the same three hashes, and what was there before at every other
    key. *)
Theorem lookup_after_add (st : MemoryExchangeRates.t) (b t b' t' : Currency)
    (date date' : option Date) (r : string) :
  MemoryExchangeRates.get_exchange_rate
    (MemoryExchangeRates.add_exchange_rate st b t r date) b' t' date'
  = if decide (hash b' = hash b /\ hash t' = hash t /\ hash date' = hash date)
    then Some r
    else MemoryExchangeRates.get_exchange_rate st b' t' date'.
Proof.
  unfold MemoryExchangeRates.get_exchange_rate, MemoryExchangeRates.add_exchange_rate,
    MemoryExchangeRates._get_key. simpl.
  destruct (decide (hash b' = hash b /\ hash t' = hash t /\ hash date' = hash date))
    as [(-> & -> & ->)|Hne].
  - apply lookup_insert_eq.
  - apply lookup_insert_ne. intros [= H1 H2 H3]. apply Hne. auto.
Qed.

(** X2: adding twice at the same key leaves the store that adding the
    second rate alone gives. *)
Theorem add_twice (st : MemoryExchangeRates.t) (b t : Currency) (date : option Date)
    (r1 r2 : string) :
  MemoryExchangeRates.add_exchange_rate
    (MemoryExchangeRates.add_exchange_rate st b t r1 date) b t r2 date
  = MemoryExchangeRates.add_exchange_rate st b t r2 date.
Proof.
  apply store_eq. unfold MemoryExchangeRates.add_exchange_rate. simpl.
  apply insert_insert_eq.
Qed.

(** X3: removing a pair that has no entry in either direction leaves the
    store as it is, and removing twice is removing once. *)
Theorem remove_absent (st : MemoryExchangeRates.t) (b t : Currency) (date : option Date) :
  (MemoryExchangeRates.get_exchange_rate st b t date = None ->
   MemoryExchangeRates.get_exchange_rate st t b date = None ->
   MemoryExchangeRates.remove_exchange_rate st b t date = st) /\
  MemoryExchangeRates.remove_exchange_rate
    (MemoryExchangeRates.remove_exchange_rate st b t date) b t date
  = MemoryExchangeRates.remove_exchange_rate st b t date.
Proof.
  assert (Habs : forall st0 : MemoryExchangeRates.t,
    MemoryExchangeRates.get_exchange_rate st0 b t date = None ->
    MemoryExchangeRates.get_exchange_rate st0 t b date = None ->
    MemoryExchangeRates.remove_exchange_rate st0 b t date = st0).
  { intros st0 H1 H2. apply store_eq.
    unfold MemoryExchangeRates.get_exchange_rate in H1, H2.
    unfold MemoryExchangeRates.remove_exchange_rate. simpl.
    rewrite (delete_id _ _ H1). apply delete_id, H2. }
  split; [apply Habs|].
  apply Habs.
  - unfold MemoryExchangeRates.get_exchange_rate, MemoryExchangeRates.remove_exchange_rate.
    simpl. rewrite lookup_delete. case_decide; [reflexivity|]. apply lookup_delete_eq.
  - unfold MemoryExchangeRates.get_exchange_rate, MemoryExchangeRates.remove_exchange_rate.
    simpl. apply lookup_delete_eq.
Qed.

Lemma remove_exchange_rate_comm (st : MemoryExchangeRates.t) (b t : Currency)
    (date : option Date) :
  MemoryExchangeRates.remove_exchange_rate st b t date
  = MemoryExchangeRates.remove_exchange_rate st t b date.
Proof.
  apply store_eq. unfold MemoryExchangeRates.remove_exchange_rate. simpl.
  apply delete_delete.
Qed.

(** X4: removal does not depend on the direction in which the pair is
    given. *)
Theorem remove_swapped (st : MemoryExchangeRates.t) (b t : Currency) (date : option Date) :
  MemoryExchangeRates.remove_exchange_rate st b t date
  = MemoryExchangeRates.remove_exchange_rate st t b date.
Proof.
  apply store_eq. unfold MemoryExchangeRates.remove_exchange_rate. simpl.
  apply delete_delete.
Qed.

(** X5: an addition followed by the removal of the same pair, in either
    direction, leaves no trace of the addition. *)
Theorem remove_after_add (st : MemoryExchangeRates.t) (b t : Currency)
    (date : option Date) (r : string) :
  MemoryExchangeRates.remove_exchange_rate
    (MemoryExchangeRates.add_exchange_rate st b t r date) b t date
  = MemoryExchangeRates.remove_exchange_rate st b t date /\
  MemoryExchangeRates.remove_exchange_rate
    (MemoryExchangeRates.add_exchange_rate st b t r date) t b date
  = MemoryExchangeRates.remove_exchange_rate st b t date.
Proof.
  assert (H1 : MemoryExchangeRates.remove_exchange_rate
                 (MemoryExchangeRates.add_exchange_rate st b t r date) b t date
               = MemoryExchangeRates.remove_exchange_rate st b t date).
  { apply store_eq.
    unfold MemoryExchangeRates.remove_exchange_rate, MemoryExchangeRates.add_exchange_rate.
    simpl. rewrite delete_insert_eq. reflexivity. }
  split; [exact H1|]. rewrite <- remove_exchange_rate_comm. exact H1.
Qed.

(** X6: additions at different keys can be done in either order, and so
    can an addition and the removal of a pair neither of whose keys is the
    one added. *)
Theorem unrelated_keys_commute (st : MemoryExchangeRates.t) (b t b' t' : Currency)
    (date date' : option Date) (r r' : string) :
  MemoryExchangeRates._get_key b t date <> MemoryExchangeRates._get_key b' t' date' ->
  MemoryExchangeRates.add_exchange_rate
    (MemoryExchangeRates.add_exchange_rate st b t r date) b' t' r' date'
  = MemoryExchangeRates.add_exchange_rate
      (MemoryExchangeRates.add_exchange_rate st b' t' r' date') b t r date /\
  (MemoryExchangeRates._get_key b t date <> MemoryExchangeRates._get_key t' b' date' ->
   MemoryExchangeRates.remove_exchange_rate
     (MemoryExchangeRates.add_exchange_rate st b t r date) b' t' date'
   = MemoryExchangeRates.add_exchange_rate
       (MemoryExchangeRates.remove_exchange_rate st b' t' date') b t r date).
Proof.
  intros Hk. split.
  - apply store_eq. unfold MemoryExchangeRates.add_exchange_rate. simpl.
    apply insert_insert_ne. congruence.
  - intros Hk'. apply store_eq.
    unfold MemoryExchangeRates.add_exchange_rate, MemoryExchangeRates.remove_exchange_rate.
    simpl. rewrite !delete_insert_ne by congruence. reflexivity.
Qed.

Lemma lookup_add_ne (st : MemoryExchangeRates.t) (b t b' t' : Currency)
    (date date' : option Date) s :
  MemoryExchangeRates._get_key b' t' date' <> MemoryExchangeRates._get_key b t date ->
  MemoryExchangeRates.get_exchange_rate
    (MemoryExchangeRates.add_exchange_rate st b t s date) b' t' date'
  = MemoryExchangeRates.get_exchange_rate st b' t' date'.
Proof.
  intros Hne.
  unfold MemoryExchangeRates.get_exchange_rate, MemoryExchangeRates.add_exchange_rate.
  simpl. apply lookup_insert_ne. congruence.
Qed.

Lemma lookup_remove_ne (st : MemoryExchangeRates.t) (b t b' t' : Currency)
    (date date' : option Date) :
  MemoryExchangeRates._get_key b' t' date' <> MemoryExchangeRates._get_key b t date ->
  MemoryExchangeRates._get_key b' t' date' <> MemoryExchangeRates._get_key t b date ->
  MemoryExchangeRates.get_exchange_rate
    (MemoryExchangeRates.remove_exchange_rate st b t date) b' t' date'
  = MemoryExchangeRates.get_exchange_rate st b' t' date'.
Proof.
  intros H1 H2.
  unfold MemoryExchangeRates.get_exchange_rate, MemoryExchangeRates.remove_exchange_rate.
  simpl. rewrite !lookup_delete_ne by congruence. reflexivity.
Qed.

Lemma lookup_remove (st : MemoryExchangeRates.t) (b t : Currency) (date : option Date) :
  MemoryExchangeRates.get_exchange_rate
    (MemoryExchangeRates.remove_exchange_rate st b t date) b t date = None /\
  MemoryExchangeRates.get_exchange_rate
    (MemoryExchangeRates.remove_exchange_rate st b t date) t b date = None.
Proof.
  unfold MemoryExchangeRates.get_exchange_rate, MemoryExchangeRates.remove_exchange_rate.
  simpl. split.
  - rewrite lookup_delete. case_decide; [reflexivity|]. apply lookup_delete_eq.
  - apply lookup_delete_eq.
Qed.

End store.

(** ** The resolver over the store *)

Section resolver_store.
Context {Currency Date Float : Type}.
Context {hash_currency : Hash Currency} {hash_date : Hash (option Date)}.
Context {str_float : Str Float}.
Variable module_get_exchange_rate :
  Currency -> Currency -> option Date -> outcome value.

(** [get_exchange_rate] reads the store at two keys only. *)
Lemma get_ext self self' (b t : Currency) ind (date : option Date) :
  MemoryExchangeRates.get_exchange_rate (ExchangeRates.store self) b t date
  = MemoryExchangeRates.get_exchange_rate (ExchangeRates.store self') b t date ->
  MemoryExchangeRates.get_exchange_rate (ExchangeRates.store self) t b date
  = MemoryExchangeRates.get_exchange_rate (ExchangeRates.store self') t b date ->
  ExchangeRates.get_exchange_rate module_get_exchange_rate self b t ind date
  = ExchangeRates.get_exchange_rate module_get_exchange_rate self' b t ind date.
Proof.
  intros H1 H2. unfold ExchangeRates.get_exchange_rate. rewrite H1, H2. reflexivity.
Qed.

(** X7: adding a rate for one pair changes the answer for no pair whose
    two keys, direct and swapped, differ from the key written. *)
Theorem add_exchange_rate_frame self self' (b t : Currency) (r : rate_arg Float)
    (date : option Date) (b' t' : Currency) ind (date' : option Date) :
  ExchangeRates.add_exchange_rate self b t r date = Returns self' ->
  MemoryExchangeRates._get_key b' t' date' <> MemoryExchangeRates._get_key b t date ->
  MemoryExchangeRates._get_key t' b' date' <> MemoryExchangeRates._get_key b t date ->
  ExchangeRates.get_exchange_rate module_get_exchange_rate self' b' t' ind date'
  = ExchangeRates.get_exchange_rate module_get_exchange_rate self b' t' ind date'.
Proof.
  intros Hadd H1 H2. unfold ExchangeRates.add_exchange_rate in Hadd.
  injection Hadd as <-. apply get_ext; simpl; apply lookup_add_ne; assumption.
Qed.

(** X8: after the resolver's [remove_exchange_rate(base, target, date)] the
    pair resolves in neither direction: without an indirection currency
    both calls return [None]; and every pair that shares no key with the
    removed one resolves as before. *)
Theorem remove_then_get self self' (b t : Currency) (date : option Date) :
  ExchangeRates.remove_exchange_rate self b t date = Returns self' ->
  ExchangeRates.get_exchange_rate module_get_exchange_rate self' b t None date
    = Returns VNone /\
  ExchangeRates.get_exchange_rate module_get_exchange_rate self' t b None date
    = Returns VNone /\
  forall (b' t' : Currency) ind (date' : option Date),
    MemoryExchangeRates._get_key b' t' date' <> MemoryExchangeRates._get_key b t date ->
    MemoryExchangeRates._get_key b' t' date' <> MemoryExchangeRates._get_key t b date ->
    MemoryExchangeRates._get_key t' b' date' <> MemoryExchangeRates._get_key b t date ->
    MemoryExchangeRates._get_key t' b' date' <> MemoryExchangeRates._get_key t b date ->
    ExchangeRates.get_exchange_rate module_get_exchange_rate self' b' t' ind date'
    = ExchangeRates.get_exchange_rate module_get_exchange_rate self b' t' ind date'.
Proof.
  intros Hrem. unfold ExchangeRates.remove_exchange_rate in Hrem.
  injection Hrem as <-.
  destruct (lookup_remove (ExchangeRates.store self) b t date) as [Hd Hi].
  split; [|split].
  - rewrite get_absent; simpl; [rewrite Hd; reflexivity | left; exact Hd | left; exact Hi].
  - rewrite get_absent; simpl; [rewrite Hi; reflexivity | left; exact Hi | left; exact Hd].
  - intros b' t' ind date' H1 H2 H3 H4.
    apply get_ext; simpl; apply lookup_remove_ne; assumption.
Qed.

(** X9: the resolver the module creates knows no rate: every lookup in its
    store is [None]; every call without an indirection currency returns
    [None], and every call with one raises [AttributeError]. *)
Theorem fresh_resolver (b t : Currency) ind (date : option Date) :
  MemoryExchangeRates.get_exchange_rate (ExchangeRates.store exchange_rates) b t date
    = None /\
  ExchangeRates.get_exchange_rate module_get_exchange_rate exchange_rates b t ind date
    = match ind with
      | None => Returns VNone
      | Some _ => Raises (AttributeError "currency")
      end.
Proof.
  assert (Hl : forall x y : Currency,
    MemoryExchangeRates.get_exchange_rate (ExchangeRates.store exchange_rates) x y date
    = None).
  { intros x y. unfold MemoryExchangeRates.get_exchange_rate. simpl. apply lookup_empty. }
  split; [apply Hl|]. destruct ind as [ic|].
  - apply get_indirection; left; apply Hl.
  - rewrite get_absent; [rewrite Hl; reflexivity | left; apply Hl | left; apply Hl].
Qed.

(** X10: an entry that is the empty string counts as missing:
    the inverse entry is used if there is one, and otherwise the empty
    string itself is returned, not [None]. *)
Theorem empty_entry self (b t : Currency) (date : option Date) :
  MemoryExchangeRates.get_exchange_rate (ExchangeRates.store self) b t date = Some "" ->
  (forall ind s, s <> "" ->
     MemoryExchangeRates.get_exchange_rate (ExchangeRates.store self) t b date = Some s ->
     ExchangeRates.get_exchange_rate module_get_exchange_rate self b t ind date
     = d ← from_str s; q ← truediv (from_int 1) d; Returns (VDecimal q)) /\
  (falsy_lookup (MemoryExchangeRates.get_exchange_rate (ExchangeRates.store self) t b date) ->
   ExchangeRates.get_exchange_rate module_get_exchange_rate self b t None date
   = Returns (VStr "")).
Proof.
  intros Hd. split.
  - intros ind s Hne Hi. apply get_inverse; [right; exact Hd | exact Hi | exact Hne].
  - intros Hi. rewrite get_absent; [rewrite Hd; reflexivity | right; exact Hd | exact Hi].
Qed.

(** X11: what a call can give: a [Decimal], [None] or the empty string;
    or one of [InvalidOperation], [DivisionByZero], [Overflow] and
    [AttributeError] on [currency], never another exception. *)
Theorem get_exchange_rate_outcomes self (b t : Currency) ind (date : option Date) :
  match ExchangeRates.get_exchange_rate module_get_exchange_rate self b t ind date with
  | Returns v => v = VNone \/ v = VStr "" \/ exists d, v = VDecimal d
  | Raises e =>
      e = InvalidOperation \/ e = DivisionByZero \/ e = Overflow \/
      e = AttributeError "currency"
  end.
Proof.
  destruct (falsy_lookup_cases
              (MemoryExchangeRates.get_exchange_rate (ExchangeRates.store self) b t date))
    as [Hd|(s & Hs & Hne)].
  - destruct (falsy_lookup_cases
                (MemoryExchangeRates.get_exchange_rate (ExchangeRates.store self) t b date))
      as [Hi|(s & Hs & Hne)].
    + destruct ind as [ic|].
      * rewrite get_indirection by assumption. auto.
      * rewrite get_absent by assumption. destruct Hd as [-> | ->]; simpl; auto.
    + rewrite (get_inverse _ _ _ _ _ _ s Hd Hs Hne).
      destruct (from_str s) as [d|x] eqn:Hp; cbv [mbind outcome_bind].
      * destruct (truediv (from_int 1) d) as [q|x] eqn:Hq.
        -- right. right. eauto.
        -- destruct (truediv_Raises _ _ _ Hq) as [->|[->| ->]]; auto.
      * apply from_str_Raises in Hp. auto.
  - rewrite (get_direct _ _ _ _ _ _ s Hs Hne).
    destruct (from_str s) as [d|x] eqn:Hp; cbv [mbind outcome_bind].
    + right. right. eauto.
    + apply from_str_Raises in Hp. auto.
Qed.

(** X12: [None] is returned exactly when the direct entry is missing, the
    inverse entry is missing or empty, and no indirection currency is
    given. *)
Theorem get_exchange_rate_None self (b t : Currency) ind (date : option Date) :
  ExchangeRates.get_exchange_rate module_get_exchange_rate self b t ind date
    = Returns VNone <->
  MemoryExchangeRates.get_exchange_rate (ExchangeRates.store self) b t date = None /\
  falsy_lookup (MemoryExchangeRates.get_exchange_rate (ExchangeRates.store self) t b date) /\
  ind = None.
Proof.
  split.
  - intros Hget.
    destruct (falsy_lookup_cases
                (MemoryExchangeRates.get_exchange_rate (ExchangeRates.store self) b t date))
      as [Hd|(s & Hs & Hne)].
    + destruct (falsy_lookup_cases
                  (MemoryExchangeRates.get_exchange_rate (ExchangeRates.store self) t b date))
        as [Hi|(s & Hs & Hne)].
      * destruct ind as [ic|].
        -- rewrite get_indirection in Hget by assumption. discriminate.
        -- rewrite get_absent in Hget by assumption.
           destruct Hd as [Hd|Hd]; rewrite Hd in Hget |- *; [auto | discriminate].
      * rewrite (get_inverse _ _ _ _ _ _ s Hd Hs Hne) in Hget.
        destruct (from_str s) as [d|x]; cbv [mbind outcome_bind] in Hget;
          [|discriminate].
        destruct (truediv (from_int 1) d); discriminate.
    + rewrite (get_direct _ _ _ _ _ _ s Hs Hne) in Hget.
      destruct (from_str s); discriminate.
  - intros (Hd & Hi & ->).
    rewrite get_absent; [rewrite Hd; reflexivity | left; exact Hd | exact Hi].
Qed.

(** X13: [AttributeError] is raised exactly when an indirection currency is
    given and neither the direct nor the inverse entry is usable. *)
Theorem get_exchange_rate_AttributeError self (b t : Currency) ind (date : option Date) name :
  ExchangeRates.get_exchange_rate module_get_exchange_rate self b t ind date
    = Raises (AttributeError name) <->
  name = "currency" /\ ind <> None /\
  falsy_lookup (MemoryExchangeRates.get_exchange_rate (ExchangeRates.store self) b t date) /\
  falsy_lookup (MemoryExchangeRates.get_exchange_rate (ExchangeRates.store self) t b date).
Proof.
  split.
  - intros Hget.
    destruct (falsy_lookup_cases
                (MemoryExchangeRates.get_exchange_rate (ExchangeRates.store self) b t date))
      as [Hd|(s & Hs & Hne)].
    + destruct (falsy_lookup_cases
                  (MemoryExchangeRates.get_exchange_rate (ExchangeRates.store self) t b date))
        as [Hi|(s & Hs & Hne)].
      * destruct ind as [ic|].
        -- rewrite get_indirection in Hget by assumption. injection Hget as <-.
           repeat split; auto.
        -- rewrite get_absent in Hget by assumption. discriminate.
      * rewrite (get_inverse _ _ _ _ _ _ s Hd Hs Hne) in Hget.
        destruct (from_str s) as [d|x] eqn:Hp; cbv [mbind outcome_bind] in Hget.
        -- destruct (truediv (from_int 1) d) as [q|x] eqn:Hq; [discriminate|].
           injection Hget as ->.
           destruct (truediv_Raises _ _ _ Hq) as [?|[?|?]]; discriminate.
        -- apply from_str_Raises in Hp. subst x. discriminate.
    + rewrite (get_direct _ _ _ _ _ _ s Hs Hne) in Hget.
      destruct (from_str s) as [d|x] eqn:Hp; [discriminate|].
      apply from_str_Raises in Hp. subst x. discriminate.
  - intros (-> & Hind & Hd & Hi). destruct ind as [ic|]; [|congruence].
    apply get_indirection; assumption.
Qed.

(** X14: [InvalidOperation] is raised exactly when the direct entry is
    non-empty and not a decimal numeral, or the direct entry is unusable
    and the inverse entry is non-empty and either not a numeral or a
    signaling NaN. *)
Theorem get_exchange_rate_InvalidOperation self (b t : Currency) ind (date : option Date) :
  ExchangeRates.get_exchange_rate module_get_exchange_rate self b t ind date
    = Raises InvalidOperation <->
  (exists s,
     MemoryExchangeRates.get_exchange_rate (ExchangeRates.store self) b t date = Some s /\
     s <> "" /\ from_str s = Raises InvalidOperation) \/
  (falsy_lookup (MemoryExchangeRates.get_exchange_rate (ExchangeRates.store self) b t date) /\
   exists s,
     MemoryExchangeRates.get_exchange_rate (ExchangeRates.store self) t b date = Some s /\
     s <> "" /\
     (from_str s = Raises InvalidOperation \/
      exists sg p, from_str s = Returns (NaN sg true p))).
Proof.
  split.
  - intros Hget.
    destruct (falsy_lookup_cases
                (MemoryExchangeRates.get_exchange_rate (ExchangeRates.store self) b t date))
      as [Hd|(s & Hs & Hne)].
    + right. split; [assumption|].
      destruct (falsy_lookup_cases
                  (MemoryExchangeRates.get_exchange_rate (ExchangeRates.store self) t b date))
        as [Hi|(s & Hs & Hne)].
      * destruct ind as [ic|].
        -- rewrite get_indirection in Hget by assumption. discriminate.
        -- rewrite get_absent in Hget by assumption. discriminate.
      * exists s. split; [assumption|]. split; [assumption|].
        rewrite (get_inverse _ _ _ _ _ _ s Hd Hs Hne) in Hget.
        destruct (from_str s) as [d|x] eqn:Hp; cbv [mbind outcome_bind] in Hget.
        -- right. destruct (truediv (from_int 1) d) as [q|x] eqn:Hq; [discriminate|].
           injection Hget as ->.
           apply truediv_one_InvalidOperation in Hq as (sg & p & ->). eauto.
        -- left. apply from_str_Raises in Hp. subst x. reflexivity.
    + left. exists s. split; [assumption|]. split; [assumption|].
      rewrite (get_direct _ _ _ _ _ _ s Hs Hne) in Hget.
      destruct (from_str s) as [d|x] eqn:Hp; [discriminate|].
      apply from_str_Raises in Hp. subst x. reflexivity.
  - intros [(s & Hs & Hne & Hp)|(Hd & s & Hs & Hne & [Hp|(sg & p & Hp)])].
    + rewrite (get_direct _ _ _ _ _ _ s Hs Hne), Hp. reflexivity.
    + rewrite (get_inverse _ _ _ _ _ _ s Hd Hs Hne), Hp. reflexivity.
    + rewrite (get_inverse _ _ _ _ _ _ s Hd Hs Hne), Hp. reflexivity.
Qed.

(** X15: a rate added for (target, base) only is used for (base, target)
    through its reciprocal; when the two pairs have the same key, as for a
    currency against itself, the rate itself is returned. *)
Theorem swapped_rate_after_add self self' (b t : Currency) (r : rate_arg Float)
    (date : option Date) ind :
  ExchangeRates.add_exchange_rate self t b r date = Returns self' ->
  str r <> "" ->
  (MemoryExchangeRates._get_key b t date <> MemoryExchangeRates._get_key t b date ->
   falsy_lookup (MemoryExchangeRates.get_exchange_rate (ExchangeRates.store self) b t date) ->
   ExchangeRates.get_exchange_rate module_get_exchange_rate self' b t ind date
   = d ← from_str (str r); q ← truediv (from_int 1) d; Returns (VDecimal q)) /\
  (MemoryExchangeRates._get_key b t date = MemoryExchangeRates._get_key t b date ->
   ExchangeRates.get_exchange_rate module_get_exchange_rate self' b t ind date
   = d ← from_str (str r); Returns (VDecimal d)).
Proof.
  intros Hadd Hne. unfold ExchangeRates.add_exchange_rate in Hadd.
  injection Hadd as <-. split.
  - intros Hkey Hd. apply get_inverse; simpl.
    + rewrite lookup_add_ne by assumption. exact Hd.
    + apply lookup_add.
    + exact Hne.
  - intros Hkey. apply get_direct; simpl; [|exact Hne].
    unfold MemoryExchangeRates.get_exchange_rate, MemoryExchangeRates.add_exchange_rate.
    simpl. rewrite Hkey. apply lookup_insert_eq.
Qed.

(** X16: when the inverse entry is used and reads as an infinity, the
    result is a zero of the same sign at the smallest exponent; when it
    reads as a quiet NaN, the result is that NaN with its payload cut to
    28 digits. *)
Theorem inverse_of_special self (b t : Currency) ind (date : option Date) s :
  falsy_lookup (MemoryExchangeRates.get_exchange_rate (ExchangeRates.store self) b t date) ->
  MemoryExchangeRates.get_exchange_rate (ExchangeRates.store self) t b date = Some s ->
  (forall sg, from_str s = Returns (Infinity sg) ->
     ExchangeRates.get_exchange_rate module_get_exchange_rate self b t ind date
     = Returns (VDecimal (Finite sg 0 Etiny))) /\
  (forall sg p, from_str s = Returns (NaN sg false p) ->
     ExchangeRates.get_exchange_rate module_get_exchange_rate self b t ind date
     = Returns (VDecimal (NaN sg false (p mod 10 ^ 28)%N))).
Proof.
  intros Hd Hi. split.
  - intros sg Hp. assert (Hne : s <> "") by (intros ->; discriminate).
    rewrite (get_inverse _ _ _ _ _ _ s Hd Hi Hne), Hp. reflexivity.
  - intros sg p Hp. assert (Hne : s <> "") by (intros ->; discriminate).
    rewrite (get_inverse _ _ _ _ _ _ s Hd Hi Hne), Hp. reflexivity.
Qed.

(** X17: when the inverse entry is used and reads as a finite non-zero
    number [c * 10^e] below [10^Emin], the call raises [Overflow]. *)
Theorem inverse_overflow self (b t : Currency) ind (date : option Date) r s c e :
  falsy_lookup (MemoryExchangeRates.get_exchange_rate (ExchangeRates.store self) b t date) ->
  MemoryExchangeRates.get_exchange_rate (ExchangeRates.store self) t b date = Some r ->
  from_str r = Returns (Finite s c e) ->
  c <> 0%N -> e + len c < Emin ->
  ExchangeRates.get_exchange_rate module_get_exchange_rate self b t ind date
  = Raises Overflow.
Proof.
  intros Hd Hi Hp Hc Hsmall. assert (Hne : r <> "") by (intros ->; discriminate).
  rewrite (get_inverse _ _ _ _ _ _ r Hd Hi Hne), Hp. cbv [mbind outcome_bind].
  rewrite reciprocal_Overflow by assumption. reflexivity.
Qed.

(** X18: when the inverse entry is used and reads as a finite non-zero number
    [c * 10^e] of more than [Emax + prec + 1] digits before the point, the
    call raises nothing and returns a zero of the same sign at the
    smallest exponent. *)
Theorem inverse_underflow self (b t : Currency) ind (date : option Date) r s c e :
  falsy_lookup (MemoryExchangeRates.get_exchange_rate (ExchangeRates.store self) b t date) ->
  MemoryExchangeRates.get_exchange_rate (ExchangeRates.store self) t b date = Some r ->
  from_str r = Returns (Finite s c e) ->
  c <> 0%N -> Emax + prec + 1 < e + len c ->
  ExchangeRates.get_exchange_rate module_get_exchange_rate self b t ind date
  = Returns (VDecimal (Finite s 0 Etiny)).
Proof.
  intros Hd Hi Hp Hc Hbig. assert (Hne : r <> "") by (intros ->; discriminate).
  rewrite (get_inverse _ _ _ _ _ _ r Hd Hi Hne), Hp. cbv [mbind outcome_bind].
  rewrite reciprocal_underflow by assumption. reflexivity.
Qed.

(** X19: the result never depends on the module-level resolver that the
    indirection branch names: the branch stops at [self.currency] before
    either leg is asked for. *)
Theorem indirection_legs_unused
    (other : Currency -> Currency -> option Date -> outcome value)
    self (b t : Currency) ind (date : option Date) :
  ExchangeRates.get_exchange_rate module_get_exchange_rate self b t ind date
  = ExchangeRates.get_exchange_rate other self b t ind date.
Proof.
  unfold ExchangeRates.get_exchange_rate.
  destruct (truthy (of_lookup _)); [reflexivity|].
  destruct (truthy (of_lookup _)); [reflexivity|].
  destruct ind; reflexivity.
Qed.

End resolver_store.

(** ** The further properties on the concrete runtime *)

(** Removing EUR/GBP from a store that holds USD -> EUR only changes
    nothing. *)
Lemma remove_absent_witness :
  MemoryExchangeRates.remove_exchange_rate
    (ExchangeRates.store (iso.resolver_of [("USD", "EUR", "0.9", None)]))
    "EUR" "GBP" (None : option iso.Date)
  = ExchangeRates.store (iso.resolver_of [("USD", "EUR", "0.9", None)]).
Proof.
  apply (proj1 (remove_absent
                  (ExchangeRates.store (iso.resolver_of [("USD", "EUR", "0.9", None)]))
                  "EUR" "GBP" (None : option iso.Date))); reflexivity.
Defined.

(** Adding EUR -> GBP does not change what USD -> EUR resolves to. *)
Lemma add_exchange_rate_frame_witness :
  ExchangeRates.get_exchange_rate iso.no_rate
    (iso.resolver_of [("EUR", "GBP", "0.85", None); ("USD", "EUR", "0.9", None)])
    "USD" "EUR" None None
  = ExchangeRates.get_exchange_rate iso.no_rate
      (iso.resolver_of [("USD", "EUR", "0.9", None)]) "USD" "EUR" None None.
Proof.
  apply (add_exchange_rate_frame (Float := float.binary64) iso.no_rate
           (iso.resolver_of [("USD", "EUR", "0.9", None)])
           (iso.resolver_of [("EUR", "GBP", "0.85", None); ("USD", "EUR", "0.9", None)])
           "EUR" "GBP" (RStr "0.85") None "USD" "EUR" None None).
  - reflexivity.
  - discriminate.
  - discriminate.
Defined.

(** With EUR -> USD stored, removing USD/EUR leaves EUR -> USD
    unresolved. *)
Lemma remove_then_get_witness :
  ExchangeRates.get_exchange_rate iso.no_rate
    (ExchangeRates.mk
       (MemoryExchangeRates.remove_exchange_rate
          (ExchangeRates.store (iso.resolver_of [("EUR", "USD", "1.2", None)]))
          "USD" "EUR" (None : option iso.Date)))
    "EUR" "USD" None None
  = Returns VNone.
Proof.
  destruct (remove_then_get iso.no_rate
              (iso.resolver_of [("EUR", "USD", "1.2", None)])
              (ExchangeRates.mk
                 (MemoryExchangeRates.remove_exchange_rate
                    (ExchangeRates.store (iso.resolver_of [("EUR", "USD", "1.2", None)]))
                    "USD" "EUR" (None : option iso.Date)))
              "USD" "EUR" None eq_refl) as (_ & Hswapped & _).
  exact Hswapped.
Defined.

(** An empty string stored for USD -> EUR comes back as it is. *)
Lemma empty_entry_witness :
  ExchangeRates.get_exchange_rate iso.no_rate
    (iso.resolver_of [("USD", "EUR", "", None)]) "USD" "EUR" None None
  = Returns (VStr "").
Proof.
  assert (Hd : MemoryExchangeRates.get_exchange_rate
                 (ExchangeRates.store (iso.resolver_of [("USD", "EUR", "", None)]))
                 "USD" "EUR" (None : option iso.Date) = Some "") by reflexivity.
  apply (proj2 (empty_entry iso.no_rate (iso.resolver_of [("USD", "EUR", "", None)])
                  "USD" "EUR" None Hd)).
  left. reflexivity.
Defined.

Lemma get_exchange_rate_None_witness :
  ExchangeRates.get_exchange_rate iso.no_rate
    (iso.resolver_of [("USD", "EUR", "0.9", None)]) "USD" "GBP" None None
  = Returns VNone.
Proof.
  apply (proj2 (get_exchange_rate_None iso.no_rate
                  (iso.resolver_of [("USD", "EUR", "0.9", None)]) "USD" "GBP" None None)).
  split; [reflexivity|]. split; [left; reflexivity | reflexivity].
Defined.

Lemma get_exchange_rate_AttributeError_witness :
  ExchangeRates.get_exchange_rate iso.no_rate
    (iso.resolver_of [("USD", "EUR", "0.9", None)]) "USD" "GBP" (Some "EUR") None
  = Raises (AttributeError "currency").
Proof.
  apply (proj2 (get_exchange_rate_AttributeError iso.no_rate
                  (iso.resolver_of [("USD", "EUR", "0.9", None)])
                  "USD" "GBP" (Some "EUR") None "currency")).
  split; [reflexivity|]. split; [discriminate|].
  split; left; reflexivity.
Defined.

(** A signaling NaN stored for EUR -> USD makes USD -> EUR raise. *)
Lemma get_exchange_rate_InvalidOperation_witness :
  ExchangeRates.get_exchange_rate iso.no_rate
    (iso.resolver_of [("EUR", "USD", "sNaN", None)]) "USD" "EUR" None None
  = Raises InvalidOperation.
Proof.
  apply (proj2 (get_exchange_rate_InvalidOperation iso.no_rate
                  (iso.resolver_of [("EUR", "USD", "sNaN", None)])
                  "USD" "EUR" None None)).
  right. split; [left; reflexivity|].
  exists "sNaN". split; [reflexivity|]. split; [discriminate|].
  right. exists false, 0%N. reflexivity.
Defined.

(** EUR -> USD at 2 is added to the empty resolver: USD -> EUR is 0.5. *)
Lemma swapped_rate_after_add_witness :
  ExchangeRates.get_exchange_rate iso.no_rate
    (iso.resolver_of [("EUR", "USD", "2", None)]) "USD" "EUR" None None
  = Returns (VDecimal (Finite false 5 (-1))).
Proof.
  rewrite (proj1 (swapped_rate_after_add (Float := float.binary64) iso.no_rate
                    (iso.resolver_of []) (iso.resolver_of [("EUR", "USD", "2", None)])
                    "USD" "EUR" (RStr "2") None None eq_refl ltac:(discriminate))).
  - reflexivity.
  - discriminate.
  - left. reflexivity.
Defined.

(** An infinite EUR -> USD gives a zero USD -> EUR. *)
Lemma inverse_of_special_witness :
  ExchangeRates.get_exchange_rate iso.no_rate
    (iso.resolver_of [("EUR", "USD", "Infinity", None)]) "USD" "EUR" None None
  = Returns (VDecimal (Finite false 0 Etiny)).
Proof.
  assert (Hd : falsy_lookup
                 (MemoryExchangeRates.get_exchange_rate
                    (ExchangeRates.store (iso.resolver_of [("EUR", "USD", "Infinity", None)]))
                    "USD" "EUR" (None : option iso.Date))) by (left; reflexivity).
  assert (Hi : MemoryExchangeRates.get_exchange_rate
                 (ExchangeRates.store (iso.resolver_of [("EUR", "USD", "Infinity", None)]))
                 "EUR" "USD" (None : option iso.Date) = Some "Infinity") by reflexivity.
  apply (proj1 (inverse_of_special iso.no_rate
                  (iso.resolver_of [("EUR", "USD", "Infinity", None)])
                  "USD" "EUR" None None "Infinity" Hd Hi)).
  reflexivity.
Defined.

(** EUR -> USD at 1E-1000001: USD -> EUR would be 1E+1000001. *)
Lemma inverse_overflow_witness :
  ExchangeRates.get_exchange_rate iso.no_rate
    (iso.resolver_of [("EUR", "USD", "1E-1000001", None)]) "USD" "EUR" None None
  = Raises Overflow.
Proof.
  apply (inverse_overflow iso.no_rate
           (iso.resolver_of [("EUR", "USD", "1E-1000001", None)])
           "USD" "EUR" None None "1E-1000001" false 1 (-1000001)).
  - left. reflexivity.
  - reflexivity.
  - vm_compute. reflexivity.
  - discriminate.
  - vm_compute. reflexivity.
Defined.

(** USD -> EUR and EUR -> GBP can be added in either order. *)
Lemma unrelated_keys_commute_witness :
  MemoryExchangeRates.add_exchange_rate
    (MemoryExchangeRates.add_exchange_rate MemoryExchangeRates.__init__
       "USD" "EUR" "0.9" (None : option iso.Date))
    "EUR" "GBP" "0.85" (None : option iso.Date)
  = MemoryExchangeRates.add_exchange_rate
      (MemoryExchangeRates.add_exchange_rate MemoryExchangeRates.__init__
         "EUR" "GBP" "0.85" (None : option iso.Date))
      "USD" "EUR" "0.9" (None : option iso.Date).
Proof.
  assert (Hk : MemoryExchangeRates._get_key "USD" "EUR" (None : option iso.Date)
               <> MemoryExchangeRates._get_key "EUR" "GBP" (None : option iso.Date))
    by discriminate.
  apply (proj1 (unrelated_keys_commute MemoryExchangeRates.__init__
                  "USD" "EUR" "EUR" "GBP" (None : option iso.Date) (None : option iso.Date)
                  "0.9" "0.85" Hk)).
Defined.

(** EUR -> USD at 1E+1000028: USD -> EUR is a zero. *)
Lemma inverse_underflow_witness :
  ExchangeRates.get_exchange_rate iso.no_rate
    (iso.resolver_of [("EUR", "USD", "1E+1000028", None)]) "USD" "EUR" None None
  = Returns (VDecimal (Finite false 0 Etiny)).
Proof.
  apply (inverse_underflow iso.no_rate
           (iso.resolver_of [("EUR", "USD", "1E+1000028", None)])
           "USD" "EUR" None None "1E+1000028" false 1 1000028).
  - left. reflexivity.
  - reflexivity.
  - vm_compute. reflexivity.
  - discriminate.
  - vm_compute. reflexivity.
Defined.
